(** * Finite dimensional graded commutative algebras

    A shallow embedding of [src/sage/algebras/finite_gca.py]
    (class [FiniteGCAlgebra]) and the verification of its basis index set,
    its validity predicate, its sign-aware product on basis indices, its
    construction checks and its generator accessors.

    Conventions.
    - Python integers are [Z]; lengths and positions produced by [len] and
      [range(n)] are [nat].
    - An exponent vector (an element of [WeightedIntegerVectors(degrees)]) is a
      [list Z]; membership in that parent is the predicate [weighted_vector].
    - A Python exception is a value of [exn]; a call that may raise returns a
      [result].
    - An element of the algebra is a finite map from exponent vectors to
      coefficients, as the dictionary of a [CombinatorialFreeModule] element
      is; coefficients are kept in [Z], the only coefficients the product
      creates being [1] and [-1]. *)

From Stdlib Require Import ZArith List Bool Lia Ascii String.
From stdpp Require Import base numbers list strings pretty gmap fin_maps.

Local Open Scope Z_scope.

(** ** Python exceptions and fallible calls *)

Inductive exn : Type :=
| TypeError
| ValueError
| IndexError.

Inductive result (A : Type) : Type :=
| Ok (a : A)
| Raise (e : exn).

Arguments Ok {A} a.
Arguments Raise {A} e.

#[global] Instance result_ret : MRet result := fun A a => Ok a.

#[global] Instance result_bind : MBind result := fun A B k r =>
  match r with
  | Ok a => k a
  | Raise e => Raise e
  end.

Definition raises {A : Type} (r : result A) : Prop := ∃ e, r = Raise e.
Definition returns {A : Type} (r : result A) : Prop := ∃ a, r = Ok a.

(** ** Python built-ins used by the class *)

(** [range(start, stop, step)] on integers; a zero step raises [ValueError]. *)
Definition py_range (start stop step : Z) : result (list Z) :=
  if step =? 0 then Raise ValueError
  else
    let len :=
      if 0 <? step then Z.max 0 ((stop - start + step - 1) / step)
      else Z.max 0 ((start - stop - step - 1) / (- step)) in
    Ok (map (fun i : nat => start + Z.of_nat i * step) (seq 0 (Z.to_nat len))).

(** [max(l)]; the empty sequence raises [ValueError]. *)
Definition py_max (l : list Z) : result Z :=
  match l with
  | [] => Raise ValueError
  | x :: l' => Ok (fold_left Z.max l' x)
  end.

(** [l[i]] for a list [l] and an integer [i]: a negative [i] counts from the
    end, and an index outside [-len(l) .. len(l)-1] raises [IndexError]. *)
Definition py_getitem {A : Type} (l : list A) (i : Z) : result A :=
  let n := Z.of_nat (length l) in
  let j := if i <? 0 then i + n else i in
  if (j <? 0) || (n <=? j) then Raise IndexError
  else match l !! Z.to_nat j with
       | Some x => Ok x
       | None => Raise IndexError
       end.

(** [l[k] = x] for a position [k] taken from a [range]: a position past the
    end raises [IndexError]. *)
Definition py_setitem {A : Type} (l : list A) (k : nat) (x : A)
  : result (list A) :=
  if (k <? length l)%nat then Ok (<[k := x]> l) else Raise IndexError.

(** [zip(a, b, c)]: stops at the shortest argument. *)
Fixpoint zip3 {A B C : Type} (a : list A) (b : list B) (c : list C)
  : list (A * B * C) :=
  match a, b, c with
  | x :: a', y :: b', z :: c' => (x, y, z) :: zip3 a' b' c'
  | _, _, _ => []
  end.

(** [s.split(sep)] for a one-character separator. *)
Fixpoint py_split (sep : ascii) (s : string) : list string :=
  match s with
  | EmptyString => [EmptyString]
  | String c s' =>
      if Ascii.eqb c sep then EmptyString :: py_split sep s'
      else match py_split sep s' with
           | [] => [String c EmptyString]
           | h :: t => String c h :: t
           end
  end.

(** [gcd] of a sequence of integers (non-negative, [0] for the empty one). *)
Definition gcd (l : list Z) : Z := fold_right Z.gcd 0 l.

(** [is_odd] and [is_even] of [sage.misc.functional] on integers. *)
Definition is_even (d : Z) : bool := (d mod 2 =? 0).
Definition is_odd (d : Z) : bool := negb (is_even d).

(** ** Elements of the free module *)

(** Modelled from the spec: the element class of [CombinatorialFreeModule]
    is not part of the file under study.  An element is a finite mapping from
    index to scalar in which zero coefficients are omitted. *)
Abbreviation elt := (gmap (list Z) Z).

Definition zero : elt := ∅.

Definition monomial (w : list Z) : elt := {[ w := 1 ]}.

(** [c * x] for a scalar [c]. *)
Definition scal (c : Z) (x : elt) : elt :=
  if c =? 0 then ∅ else Z.mul c <$> x.

(** [x + y]; a coefficient that cancels is dropped. *)
Definition add (x y : elt) : elt :=
  union_with (fun a b => if a + b =? 0 then None else Some (a + b)) x y.


(** ** The parent of exponent vectors *)

Section WeightedIntegerVectors.
Variable weights : list Z.

(** Modelled from the spec: [WeightedIntegerVectors.grading] is not part of
    the file under study.  [grading(w)] is the sum of [w_i * weight(i)],
    accumulated from the left over [zip(w, weights)]. *)
Definition grading (w : list Z) : Z :=
  fold_left (fun acc ed => acc + fst ed * snd ed) (zip w weights) 0.

(** Modelled from the spec: membership in [WeightedIntegerVectors(weights)],
    the sequences of non-negative integers with one entry per generator. *)
Definition is_weighted_vector (w : list Z) : bool :=
  (length w =? length weights)%nat && forallb (fun e => 0 <=? e) w.

(** Modelled from the spec: the element constructor
    [WeightedIntegerVectors(weights)(l)], which refuses a sequence that is
    not in the parent. *)
Definition weighted_vectors_call (l : list Z) : result (list Z) :=
  if is_weighted_vector l then Ok l else Raise ValueError.

(** Modelled from the spec: membership in the slice
    [WeightedIntegerVectors(weights).subset(k)], the vectors of the parent
    of grading exactly [k]. *)
Definition in_subset (k : Z) (w : list Z) : bool :=
  is_weighted_vector w && (grading w =? k).
End WeightedIntegerVectors.

(** ** The class [FiniteGCAlgebra] *)

(** The attributes set by [__init__].  [_universe] lists the degrees [k] whose
    slices [subset(k)] make up the disjoint union under the index set. *)
Record FiniteGCAlgebra : Type := {
  _names : list string;
  __ngens : nat;
  _degrees : list Z;
  _max_deg : Z;
  _universe : list Z
}.

(** The [names] argument: omitted, one comma-separated string, or a
    sequence of strings. *)
Inductive names_arg : Type :=
| NamesNone
| NamesStr (s : string)
| NamesSeq (l : list string).

(** The [max_degree] argument: omitted, an integer (a member of [ZZ]), or a
    value that is not a member of [ZZ]. *)
Inductive max_degree_arg : Type :=
| MaxNone
| MaxInt (z : Z)
| MaxNonInt.

Definition __classcall_private__
    (names : names_arg) (degrees : option (list Z)) (max_degree : max_degree_arg)
  : result (list string * list Z * max_degree_arg) :=
  match max_degree with
  | MaxNone => Raise TypeError
  | _ =>
    nn ← match names with
         | NamesNone =>
             match degrees with
             | None => Raise ValueError
             | Some ds =>
                 let n := length ds in
                 Ok (map (fun i : nat => "x" +:+ pretty i) (seq 0 n), n)
             end
         | NamesStr s =>
             let names := py_split "," s in Ok (names, length names)
         | NamesSeq l => Ok (l, length l)
         end;
    let '(names, n) := nn in
    let degrees :=
      match degrees with
      | None => map (fun _ => 1) (seq 0 n)
      | Some ds => ds
      end in
    Ok (names, degrees, max_degree)
  end.

Definition __init__
    (names : list string) (degrees : list Z) (max_degree : max_degree_arg)
  : result FiniteGCAlgebra :=
  match max_degree with
  | MaxInt max_degree =>
      m ← py_max degrees;
      if max_degree <? m then Raise ValueError
      else
        let step := gcd degrees in
        universe ← py_range 0 max_degree step;
        Ok {| _names := names;
              __ngens := length names;
              _degrees := degrees;
              _max_deg := max_degree;
              _universe := universe |}
  | _ => Raise TypeError
  end.

(** The constructor call [FiniteGCAlgebra(base, names, degrees, max_degree)]:
    normalisation by [__classcall_private__], then [__init__]. *)
Definition FiniteGCAlgebra_call
    (names : names_arg) (degrees : option (list Z)) (max_degree : max_degree_arg)
  : result FiniteGCAlgebra :=
  args ← __classcall_private__ names degrees max_degree;
  let '(names, degrees, max_degree) := args in
  __init__ names degrees max_degree.

Section Methods.
Variable self : FiniteGCAlgebra.

Definition _valid_index (w : list Z) : bool :=
  negb (existsb (fun id => 1 <? fst id)
          (List.filter (fun id => is_odd (snd id)) (zip w (_degrees self)))).

(** Membership in the index set [ConditionSet(universe, _valid_index)]. *)
Definition in_universe (w : list Z) : bool :=
  existsb (fun k => in_subset (_degrees self) k w) (_universe self).

Definition in_indices (w : list Z) : bool :=
  in_universe w && _valid_index w.

Definition ngens : nat := __ngens self.

(** The inner loop of the sign computation, over
    [zip(range(n), w2, self._degrees)], left at the first [q == p]. *)
Fixpoint sign_inner (p : nat) (l : list (nat * Z * Z)) (c : Z) : Z :=
  match l with
  | [] => c
  | (q, j, b) :: l' =>
      if (q =? p)%nat then c
      else if (j =? 0) || is_even b then sign_inner p l' c
      else sign_inner p l' (c + 1)
  end.

(** The outer loop, over
    [zip(reversed(range(n)), reversed(w1), reversed(self._degrees))]. *)
Fixpoint sign_outer (w2 : list Z) (l : list (nat * Z * Z)) (c : Z) : Z :=
  match l with
  | [] => c
  | (p, i, d) :: l' =>
      if is_even d || (i =? 0) then sign_outer w2 l' c
      else
        sign_outer w2 l'
          (sign_inner p (zip3 (seq 0 (__ngens self)) w2 (_degrees self)) c)
  end.

Definition product_on_basis (w1 w2 : list Z) : result elt :=
  let deg_left := grading (_degrees self) w1 in
  let deg_right := grading (_degrees self) w2 in
  let deg_tot := deg_left + deg_right in
  if _max_deg self <? deg_tot then Ok zero
  else
    w_tot ← weighted_vectors_call (_degrees self) (zip_with Z.add w1 w2);
    if negb (_valid_index w_tot) then Ok zero
    else
      let n := __ngens self in
      let c :=
        sign_outer w2
          (zip3 (rev (seq 0 n)) (rev w1) (rev (_degrees self))) 0 in
      Ok (scal ((-1) ^ c) (monomial w_tot)).

Definition degree_on_basis (i : list Z) : Z := grading (_degrees self) i.

Definition one_basis : result (list Z) :=
  let n := length (_degrees self) in
  weighted_vectors_call (_degrees self) (map (fun _ => 0) (seq 0 n)).

(** The loop of [gens] building the index of each generator. *)
Fixpoint gens_indices (zero : list Z) (ks : list nat) : result (list (list Z)) :=
  match ks with
  | [] => Ok []
  | k :: ks' =>
      ind ← py_setitem zero k 1;
      v ← weighted_vectors_call (_degrees self) ind;
      rest ← gens_indices zero ks';
      Ok (v :: rest)
  end.

Definition gens : result (list elt) :=
  let n := length (_degrees self) in
  let zero := map (fun _ => 0) (seq 0 n) in
  indices ← gens_indices zero (seq 0 n);
  Ok (map monomial indices).

Definition gen (i : Z) : result elt :=
  gs ← gens;
  py_getitem gs i.

Definition maximal_degree : Z := _max_deg self.


End Methods.

(** ** Notions used to state the properties *)

(** [w] is an element of [WeightedIntegerVectors(ds)]. *)
Definition weighted_vector (ds w : list Z) : Prop :=
  length w = length ds ∧ Forall (fun e => 0 ≤ e) w.

(** The algebra has as many names as degrees: one generator per degree. *)
Definition well_formed (self : FiniteGCAlgebra) : Prop :=
  __ngens self = length (_degrees self).




(** The index of generator [k] among [n]: exponent one at [k], zero
    elsewhere. *)
Definition unit_vector (n k : nat) : list Z := <[k := 1]> (replicate n 0).

(** The positions of a vector that the sign loops do not skip. *)
Definition flags (ds w : list Z) : list bool :=
  zip_with (fun e d => negb (is_even d || (e =? 0))) w ds.

(** The number of set flags. *)
Fixpoint cnt (f : list bool) : Z :=
  match f with
  | [] => 0
  | b :: f' => (if b then 1 else 0) + cnt f'
  end.

(** The number of pairs [(p, q)] with [q < p], [f1[p]] and [f2[q]]. *)
Fixpoint inversions (f1 f2 : list bool) : Z :=
  match f1, f2 with
  | _ :: f1', b :: f2' => (if b then cnt f1' else 0) + inversions f1' f2'
  | _, _ => 0
  end.

(** The sum over [zip(seq s m, f)] of [g p] at the set flags. *)
Fixpoint flagged_sum (g : nat → Z) (s : nat) (f : list bool) : Z :=
  match f with
  | [] => 0
  | b :: f' => (if b then g s else 0) + flagged_sum g (S s) f'
  end.

(** No position is flagged in both lists. *)
Fixpoint disjoint_flags (f1 f2 : list bool) : Prop :=
  match f1, f2 with
  | a :: f1', b :: f2' => (a && b = false) ∧ disjoint_flags f1' f2'
  | _, _ => True
  end.



(** ** The algebras of the documentation's examples *)

(** [GradedCommutativeAlgebra(QQ, 'x,y,z', degrees=(4,8,2), max_degree=10)]. *)
Definition A_4_8_2 : FiniteGCAlgebra :=
  {| _names := ["x"; "y"; "z"]; __ngens := 3; _degrees := [4; 8; 2];
     _max_deg := 10; _universe := [0; 2; 4; 6; 8] |}.

(** [GradedCommutativeAlgebra(QQ, 'x,y,z', degrees=(1,2,3), max_degree=5)]. *)
Definition A_1_2_3 : FiniteGCAlgebra :=
  {| _names := ["x"; "y"; "z"]; __ngens := 3; _degrees := [1; 2; 3];
     _max_deg := 5; _universe := [0; 1; 2; 3; 4] |}.

(** [GradedCommutativeAlgebra(QQ, 'x,y,z', degrees=(1,2,3), max_degree=10)]. *)
Definition A_1_2_3_max10 : FiniteGCAlgebra :=
  {| _names := ["x"; "y"; "z"]; __ngens := 3; _degrees := [1; 2; 3];
     _max_deg := 10; _universe := [0; 1; 2; 3; 4; 5; 6; 7; 8; 9] |}.

(** ** The display of terms *)

(** The attributes [_mul_symbol] and [_mul_latex_symbol], which [__init__]
    pops from its keyword arguments; they sit beside the attributes of
    [FiniteGCAlgebra]. *)
Record TermSymbols : Type := {
  _mul_symbol : string;
  _mul_latex_symbol : string
}.

(** [kwargs.pop('mul_symbol', '*')] and [kwargs.pop('mul_latex_symbol', '')]. *)
Definition symbols_of_kwargs (mul_symbol mul_latex_symbol : option string)
  : TermSymbols :=
  {| _mul_symbol := default "*" mul_symbol;
     _mul_latex_symbol := default "" mul_latex_symbol |}.

(** [sum(l)] on integers. *)
Definition py_sum (l : list Z) : Z := fold_left Z.add l 0.

(** [sep.join(l)]. *)
Fixpoint py_join (sep : string) (l : list string) : string :=
  match l with
  | [] => ""
  | x :: l' =>
      match l' with
      | [] => x
      | _ :: _ => x +:+ sep +:+ py_join sep l'
      end
  end.

(** The loop of [_repr_term] over [range(len(w))], appending to [terms]. *)
Fixpoint _repr_term_loop (self : FiniteGCAlgebra) (w : list Z)
    (positions : list nat) (terms : list string) : result (list string) :=
  match positions with
  | [] => Ok terms
  | i :: rest =>
      e ← py_getitem w (Z.of_nat i);
      if e =? 0 then _repr_term_loop self w rest terms
      else if e =? 1 then
        name ← py_getitem (_names self) (Z.of_nat i);
        _repr_term_loop self w rest (terms ++ [name])
      else
        name ← py_getitem (_names self) (Z.of_nat i);
        _repr_term_loop self w rest (terms ++ [name +:+ "^" +:+ pretty e])
  end.

Definition _repr_term (self : FiniteGCAlgebra) (sym : TermSymbols)
    (w : list Z) : result string :=
  if py_sum w =? 0 then Ok "1"
  else
    terms ← _repr_term_loop self w (seq 0 (length w)) [];
    Ok (py_join (_mul_symbol sym) terms).

(** The loop of [_latex_term] over [range(len(w))]. *)
Fixpoint _latex_term_loop (self : FiniteGCAlgebra) (w : list Z)
    (positions : list nat) (terms : list string) : result (list string) :=
  match positions with
  | [] => Ok terms
  | i :: rest =>
      e ← py_getitem w (Z.of_nat i);
      if e =? 0 then _latex_term_loop self w rest terms
      else if e =? 1 then
        name ← py_getitem (_names self) (Z.of_nat i);
        _latex_term_loop self w rest (terms ++ [name])
      else
        name ← py_getitem (_names self) (Z.of_nat i);
        _latex_term_loop self w rest
          (terms ++ [name +:+ "^{" +:+ pretty e +:+ "}"])
  end.

Definition _latex_term (self : FiniteGCAlgebra) (sym : TermSymbols)
    (w : list Z) : result string :=
  if py_sum w =? 0 then Ok "1"
  else
    terms ← _latex_term_loop self w (seq 0 (length w)) [];
    let latex_mul := _mul_latex_symbol sym +:+ " " in
    Ok (py_join latex_mul terms).

(** [algebra_generators]: the family of the generators, in order. *)
Definition algebra_generators (self : FiniteGCAlgebra) : result (list elt) :=
  gens self.

(** The names given to the generators when [names] is omitted. *)
Definition default_names (n : nat) : list string :=
  map (fun i : nat => "x" +:+ pretty i) (seq 0 n).

(** The exponent vector with [k] at position [i] and zero elsewhere. *)
Definition power_vector (n i : nat) (k : Z) : list Z :=
  <[i := k]> (replicate n 0).

(** The common shape of the loops of [_repr_term] and [_latex_term]: [fmt]
    writes a generator raised to an exponent other than one. *)
Fixpoint terms_loop (fmt : string → Z → string) (names : list string)
    (w : list Z) (positions : list nat) (terms : list string)
  : result (list string) :=
  match positions with
  | [] => Ok terms
  | i :: rest =>
      e ← py_getitem w (Z.of_nat i);
      if e =? 0 then terms_loop fmt names w rest terms
      else
        name ← py_getitem names (Z.of_nat i);
        terms_loop fmt names w rest
          (terms ++ [if e =? 1 then name else fmt name e])
  end.

(** How [_repr_term] and [_latex_term] write a power. *)
Definition repr_power (name : string) (e : Z) : string :=
  name +:+ "^" +:+ pretty e.

Definition latex_power (name : string) (e : Z) : string :=
  name +:+ "^{" +:+ pretty e +:+ "}".

(** Every non-zero entry of [w] sits at a position that has a name. *)
Definition support_named (names : list string) (w : list Z) : Prop :=
  ∀ (i : nat) (e : Z), w !! i = Some e → e ≠ 0 → (i < length names)%nat.

(** * Properties *)

(** ** The result monad and the Python built-ins *)

Lemma bind_Ok {A B : Type} (a : A) (k : A → result B) :
  (Ok a ≫= k) = k a.
Proof. reflexivity. Qed.

Lemma is_even_Zeven (d : Z) : is_even d = Z.even d.
Proof.
  unfold is_even. rewrite Zmod_even. destruct (Z.even d); reflexivity.
Qed.

Lemma is_odd_Zodd (d : Z) : is_odd d = Z.odd d.
Proof. unfold is_odd. rewrite is_even_Zeven. apply Z.negb_even. Qed.

Lemma const_map_seq (n s : nat) (c : Z) :
  map (fun _ : nat => c) (seq s n) = replicate n c.
Proof.
  revert s. induction n as [|n IH]; intros s; simpl; [reflexivity|].
  f_equal. apply IH.
Qed.

Lemma py_range_In (stop step : Z) (l : list Z) :
  py_range 0 stop step = Ok l →
  0 < step →
  ∀ k, In k l ↔ 0 ≤ k < stop ∧ (step | k).
Proof.
  unfold py_range. intros H Hs k.
  destruct (Z.eqb_spec step 0); [lia|].
  destruct (Z.ltb_spec 0 step); [|lia].
  injection H as <-. split.
  - intros Hin.
    apply in_map_iff in Hin as (i & <- & Hi). apply in_seq in Hi.
    split; [|exists (Z.of_nat i); lia].
    assert (Z.of_nat i + 1 ≤ (stop - 0 + step - 1) / step) as Hle by lia.
    assert (step * ((stop - 0 + step - 1) / step) ≤ stop - 0 + step - 1)
      by (apply Z.mul_div_le; lia).
    nia.
  - intros ([Hk0 Hk] & (q & ->)).
    apply in_map_iff. exists (Z.to_nat q).
    assert (0 ≤ q) by nia.
    split; [lia|]. apply in_seq.
    assert (q + 1 ≤ (stop - 0 + step - 1) / step).
    { apply Z.div_le_lower_bound; nia. }
    lia.
Qed.

(** ** Exponent vectors and their grading *)

Lemma is_weighted_vector_spec (ds w : list Z) :
  is_weighted_vector ds w = true ↔ weighted_vector ds w.
Proof.
  unfold is_weighted_vector, weighted_vector.
  rewrite andb_true_iff, Nat.eqb_eq, forallb_forall, List.Forall_forall.
  split; intros [Hl Hf]; (split; [exact Hl|]); intros e He.
  - apply Z.leb_le, Hf, He.
  - apply Z.leb_le, Hf, He.
Qed.

Lemma weighted_vectors_call_Ok (ds w : list Z) :
  weighted_vector ds w → weighted_vectors_call ds w = Ok w.
Proof.
  intros H. unfold weighted_vectors_call.
  apply is_weighted_vector_spec in H. rewrite H. reflexivity.
Qed.

Lemma weighted_vector_add (ds w1 w2 : list Z) :
  weighted_vector ds w1 → weighted_vector ds w2 →
  weighted_vector ds (zip_with Z.add w1 w2).
Proof.
  intros [L1 F1] [L2 F2]. split.
  - rewrite length_zip_with. lia.
  - clear L1 L2. revert w2 F2.
    induction F1 as [|e w1 He F1 IH]; intros w2 F2; simpl; [constructor|].
    destruct F2 as [|e' w2 He' F2]; constructor; [lia|]. apply IH, F2.
Qed.

Lemma weighted_vector_replicate (ds : list Z) :
  weighted_vector ds (replicate (length ds) 0).
Proof.
  split; [apply length_replicate|].
  apply List.Forall_forall. intros e He.
  apply list_elem_of_In, elem_of_replicate in He. lia.
Qed.

Lemma grading_acc (l : list (Z * Z)) (a : Z) :
  fold_left (fun acc ed => acc + fst ed * snd ed) l a
  = a + fold_left (fun acc ed => acc + fst ed * snd ed) l 0.
Proof.
  revert a. induction l as [|x l IH]; intros a; simpl; [lia|].
  rewrite IH, (IH (0 + _)). lia.
Qed.

Lemma grading_nil_l (ds : list Z) : grading ds [] = 0.
Proof. reflexivity. Qed.

Lemma grading_nil_r (w : list Z) : grading [] w = 0.
Proof. destruct w; reflexivity. Qed.

Lemma grading_cons (d e : Z) (ds w : list Z) :
  grading (d :: ds) (e :: w) = e * d + grading ds w.
Proof. unfold grading. simpl. rewrite grading_acc. lia. Qed.


Lemma grading_replicate_0 (ds : list Z) (n : nat) :
  grading ds (replicate n 0) = 0.
Proof.
  revert ds. induction n as [|n IH]; intros ds; [reflexivity|].
  destruct ds as [|d ds]; [reflexivity|].
  simpl replicate. rewrite grading_cons, IH. lia.
Qed.

Lemma zip_with_add_replicate_l (w : list Z) (n : nat) :
  length w = n → zip_with Z.add (replicate n 0) w = w.
Proof.
  revert n. induction w as [|e w IH]; intros [|n] Hl; simpl in *;
    try discriminate; [reflexivity|].
  f_equal. apply IH. lia.
Qed.

Lemma zip_with_add_comm (w1 w2 : list Z) :
  zip_with Z.add w1 w2 = zip_with Z.add w2 w1.
Proof.
  revert w2. induction w1 as [|e w1 IH]; intros [|e2 w2]; simpl;
    try reflexivity.
  f_equal; [lia|apply IH].
Qed.





(** ** The validity predicate *)

Section ValidIndex.
Variable self : FiniteGCAlgebra.

Lemma valid_index_nil_l : _valid_index self [] = true.
Proof. reflexivity. Qed.

Lemma valid_index_false_iff_aux (ds w : list Z) :
  existsb (fun id => 1 <? fst id)
    (List.filter (fun id => is_odd (snd id)) (zip w ds)) = true
  ↔ ∃ (i : nat) (e d : Z),
      w !! i = Some e ∧ ds !! i = Some d ∧ is_odd d = true ∧ 1 < e.
Proof.
  rewrite existsb_exists. split.
  - intros ([e d] & Hin & He). apply filter_In in Hin as [Hin Hodd].
    apply list_elem_of_In, list_elem_of_lookup in Hin as [i Hi].
    apply lookup_zip_with_Some in Hi as (e' & d' & Heq & Hw & Hd).
    injection Heq as -> ->. simpl in *.
    exists i, e', d'. repeat split; try assumption. lia.
  - intros (i & e & d & Hw & Hd & Hodd & He).
    exists (e, d). split; [|simpl; lia].
    apply filter_In. split; [|exact Hodd].
    apply list_elem_of_In, list_elem_of_lookup. exists i.
    apply lookup_zip_with_Some. exists e, d. auto.
Qed.

Lemma valid_index_false_iff (w : list Z) :
  _valid_index self w = false
  ↔ ∃ (i : nat) (e d : Z),
      w !! i = Some e ∧ _degrees self !! i = Some d ∧ is_odd d = true ∧ 1 < e.
Proof.
  unfold _valid_index. rewrite negb_false_iff.
  apply valid_index_false_iff_aux.
Qed.

Lemma valid_index_true_iff (w : list Z) :
  _valid_index self w = true
  ↔ ∀ (i : nat) (e d : Z),
      w !! i = Some e → _degrees self !! i = Some d → is_odd d = true → e ≤ 1.
Proof.
  split.
  - intros Hv i e d Hw Hd Hodd.
    destruct (Z.le_gt_cases e 1) as [|Hgt]; [assumption|].
    assert (_valid_index self w = false) as Hf
      by (apply valid_index_false_iff; exists i, e, d; auto).
    congruence.
  - intros H. destruct (_valid_index self w) eqn:Hv; [reflexivity|].
    apply valid_index_false_iff in Hv as (i & e & d & Hw & Hd & Hodd & He).
    specialize (H i e d Hw Hd Hodd). lia.
Qed.
End ValidIndex.

(** ** Counting flags *)

Lemma cnt_nonneg (f : list bool) : 0 ≤ cnt f.
Proof. induction f as [|[] f IH]; simpl; lia. Qed.

Lemma inversions_nonneg (f1 f2 : list bool) : 0 ≤ inversions f1 f2.
Proof.
  revert f2. induction f1 as [|a f1 IH]; intros [|b f2]; simpl; try lia.
  specialize (IH f2). pose proof (cnt_nonneg f1). destruct b; lia.
Qed.

Lemma flagged_sum_ext (g h : nat → Z) (s : nat) (f : list bool) :
  (∀ p, g p = h p) → flagged_sum g s f = flagged_sum h s f.
Proof.
  intros E. revert s. induction f as [|b f IH]; intros s; simpl; [reflexivity|].
  rewrite E, IH. reflexivity.
Qed.

Lemma flagged_sum_shift (g : nat → Z) (s : nat) (f : list bool) :
  flagged_sum g (S s) f = flagged_sum (fun p => g (S p)) s f.
Proof.
  revert s. induction f as [|b f IH]; intros s; simpl; [reflexivity|].
  rewrite IH. reflexivity.
Qed.

Lemma flagged_sum_plus (k : Z) (g : nat → Z) (s : nat) (f : list bool) :
  flagged_sum (fun p => k + g p) s f = k * cnt f + flagged_sum g s f.
Proof.
  revert s. induction f as [|b f IH]; intros s; simpl; [lia|].
  rewrite IH. destruct b; lia.
Qed.

Lemma flagged_sum_zero (s : nat) (f : list bool) :
  flagged_sum (fun _ => 0) s f = 0.
Proof.
  revert s. induction f as [|b f IH]; intros s; simpl; [reflexivity|].
  rewrite IH. destruct b; reflexivity.
Qed.

Lemma flagged_sum_inversions (f1 f2 : list bool) :
  flagged_sum (fun p => cnt (take p f2)) 0 f1 = inversions f1 f2.
Proof.
  revert f2. induction f1 as [|a f1 IH]; intros f2; [reflexivity|].
  destruct f2 as [|b f2].
  - simpl inversions. erewrite flagged_sum_ext; [apply flagged_sum_zero|].
    intros p. rewrite take_nil. reflexivity.
  - cbn [flagged_sum inversions]. rewrite flagged_sum_shift.
    cbn [take cnt]. rewrite flagged_sum_plus, IH.
    destruct a, b; lia.
Qed.

Lemma inversions_swap (f1 f2 : list bool) :
  disjoint_flags f1 f2 →
  inversions f1 f2 + inversions f2 f1 = cnt f1 * cnt f2.
Proof.
  revert f2. induction f1 as [|a f1 IH]; intros [|b f2] D; simpl;
    try lia.
  destruct D as [Hab D]. specialize (IH f2 D).
  destruct a, b; simpl in Hab; try discriminate; lia.
Qed.




Lemma disjoint_flags_lookup (f1 f2 : list bool) :
  (∀ i : nat, f1 !! i = Some true → f2 !! i = Some true → False) →
  disjoint_flags f1 f2.
Proof.
  revert f2. induction f1 as [|a f1 IH]; intros [|b f2] H; simpl; auto.
  split.
  - destruct a, b; try reflexivity. exfalso. apply (H 0%nat); reflexivity.
  - apply IH. intros i H1 H2. apply (H (S i)); assumption.
Qed.

Lemma disjoint_flags_orb_l (f1 f2 f3 : list bool) :
  disjoint_flags f1 f3 → disjoint_flags f2 f3 →
  disjoint_flags (zip_with orb f1 f2) f3.
Proof.
  revert f2 f3. induction f1 as [|a f1 IH]; intros [|b f2] [|c f3] D1 D2;
    simpl in *; auto.
  destruct D1 as [H1 D1], D2 as [H2 D2]. split; [|apply IH; assumption].
  destruct a, b, c; simpl in *; congruence.
Qed.

Lemma disjoint_flags_orb_r (f1 f2 f3 : list bool) :
  disjoint_flags f1 f2 → disjoint_flags f1 f3 →
  disjoint_flags f1 (zip_with orb f2 f3).
Proof.
  revert f2 f3. induction f1 as [|a f1 IH]; intros [|b f2] [|c f3] D1 D2;
    simpl in *; auto.
  destruct D1 as [H1 D1], D2 as [H2 D2]. split; [|apply IH; assumption].
  destruct a, b, c; simpl in *; congruence.
Qed.

Lemma pow_m1_even (x : Z) :
  0 ≤ x → (-1) ^ x = if Z.even x then 1 else -1.
Proof.
  intros Hx. pattern x. apply natlike_ind; [reflexivity| |exact Hx].
  clear x Hx. intros x Hx IH.
  rewrite Z.pow_succ_r, IH, Z.even_succ, <- Z.negb_even by exact Hx.
  destruct (Z.even x); reflexivity.
Qed.



(** ** Flags of exponent vectors *)

Lemma flags_cons (d e : Z) (ds w : list Z) :
  flags (d :: ds) (e :: w) = negb (is_even d || (e =? 0)) :: flags ds w.
Proof. reflexivity. Qed.

Lemma length_flags (ds w : list Z) :
  length w = length ds → length (flags ds w) = length ds.
Proof. intros H. unfold flags. rewrite length_zip_with. lia. Qed.

Lemma flags_lookup_true (ds w : list Z) (i : nat) :
  flags ds w !! i = Some true →
  ∃ e d, w !! i = Some e ∧ ds !! i = Some d ∧ is_odd d = true ∧ e ≠ 0.
Proof.
  unfold flags. intros H.
  apply lookup_zip_with_Some in H as (e & d & Hb & Hw & Hd).
  exists e, d. repeat split; try assumption.
  - unfold is_odd. destruct (is_even d); [discriminate|reflexivity].
  - intros ->. rewrite orb_true_r in Hb. discriminate.
Qed.


Lemma grading_parity_aux (ds w : list Z) :
  Forall (fun e => 0 ≤ e) w →
  (∀ (i : nat) (e d : Z),
     w !! i = Some e → ds !! i = Some d → is_odd d = true → e ≤ 1) →
  Z.even (grading ds w) = Z.even (cnt (flags ds w)).
Proof.
  intros F. revert ds. induction F as [|e w He F IH]; intros ds H.
  - reflexivity.
  - destruct ds as [|d ds]; [reflexivity|].
    rewrite grading_cons, flags_cons. cbn [cnt].
    rewrite !Z.even_add, Z.even_mul, (IH ds).
    2:{ intros i e' d' Hw Hd. apply (H (S i)); assumption. }
    f_equal. pose proof (H 0%nat e d eq_refl eq_refl) as H0.
    unfold is_odd in H0. rewrite is_even_Zeven in *.
    destruct (Z.even d) eqn:Ed; simpl.
    + rewrite orb_true_r. reflexivity.
    + assert (e = 0 ∨ e = 1) as [-> | ->] by (specialize (H0 eq_refl); lia);
        reflexivity.
Qed.

Section Flags.
Variable self : FiniteGCAlgebra.

Lemma grading_parity (w : list Z) :
  Forall (fun e => 0 ≤ e) w → _valid_index self w = true →
  Z.even (grading (_degrees self) w) = Z.even (cnt (flags (_degrees self) w)).
Proof.
  intros F V. apply grading_parity_aux; [exact F|].
  apply valid_index_true_iff, V.
Qed.

Lemma valid_index_mono (w w' : list Z) :
  Forall2 Z.le w w' → _valid_index self w' = true → _valid_index self w = true.
Proof.
  intros Hle V. apply valid_index_true_iff. intros i e d Hw Hd Hodd.
  destruct (Forall2_lookup_l _ _ _ _ _ Hle Hw) as (e' & Hw' & Hee).
  pose proof (proj1 (valid_index_true_iff self w') V i e' d Hw' Hd Hodd).
  lia.
Qed.

Lemma valid_index_disjoint (w1 w2 : list Z) :
  Forall (fun e => 0 ≤ e) w1 → Forall (fun e => 0 ≤ e) w2 →
  _valid_index self (zip_with Z.add w1 w2) = true →
  disjoint_flags (flags (_degrees self) w1) (flags (_degrees self) w2).
Proof.
  intros F1 F2 V. apply disjoint_flags_lookup. intros i H1 H2.
  apply flags_lookup_true in H1 as (e1 & d & Hw1 & Hd & Hodd & Hne1).
  apply flags_lookup_true in H2 as (e2 & d' & Hw2 & Hd' & _ & Hne2).
  assert (zip_with Z.add w1 w2 !! i = Some (e1 + e2)) as Hs.
  { apply lookup_zip_with_Some. exists e1, e2. auto. }
  pose proof (proj1 (valid_index_true_iff self _) V i _ d Hs Hd Hodd).
  rewrite List.Forall_forall in F1, F2.
  assert (0 ≤ e1) by (apply F1, list_elem_of_In, list_elem_of_lookup; eauto).
  assert (0 ≤ e2) by (apply F2, list_elem_of_In, list_elem_of_lookup; eauto).
  lia.
Qed.
End Flags.

Lemma Forall2_le_add_l (w1 w2 : list Z) :
  length w1 = length w2 → Forall (fun e => 0 ≤ e) w2 →
  Forall2 Z.le w1 (zip_with Z.add w1 w2).
Proof.
  revert w2. induction w1 as [|e1 w1 IH]; intros [|e2 w2] L F;
    simpl in *; try discriminate; [constructor|].
  apply Forall_cons in F as [H F]. constructor; [lia|]. apply IH; [lia|exact F].
Qed.

Lemma Forall2_le_add_r (w1 w2 : list Z) :
  length w1 = length w2 → Forall (fun e => 0 ≤ e) w1 →
  Forall2 Z.le w2 (zip_with Z.add w1 w2).
Proof.
  intros L F. rewrite zip_with_add_comm. apply Forall2_le_add_l; auto.
Qed.

(** ** The sign loops *)

Lemma zip3_app {A B C : Type} (a1 a2 : list A) (b1 b2 : list B) (c1 c2 : list C) :
  length a1 = length b1 → length b1 = length c1 →
  zip3 (a1 ++ a2) (b1 ++ b2) (c1 ++ c2) = zip3 a1 b1 c1 ++ zip3 a2 b2 c2.
Proof.
  revert b1 c1. induction a1 as [|x a1 IH]; intros [|y b1] [|z c1] L1 L2;
    simpl in *; try discriminate; [reflexivity|].
  f_equal. apply IH; lia.
Qed.

Lemma zip3_rev {A B C : Type} (a : list A) (b : list B) (c : list C) :
  length a = length b → length b = length c →
  zip3 (rev a) (rev b) (rev c) = rev (zip3 a b c).
Proof.
  revert b c. induction a as [|x a IH]; intros [|y b] [|z c] L1 L2;
    simpl in *; try discriminate; [reflexivity|].
  rewrite zip3_app by (rewrite !length_rev; lia).
  rewrite IH by lia. reflexivity.
Qed.

Lemma sign_inner_spec (n s : nat) (w2 ds : list Z) (c : Z) (p : nat) :
  (s ≤ p < s + n)%nat →
  sign_inner p (zip3 (seq s n) w2 ds) c = c + cnt (take (p - s) (flags ds w2)).
Proof.
  revert s w2 ds c. induction n as [|n IH]; intros s w2 ds c Hp; [lia|].
  destruct w2 as [|j w2]; [simpl; rewrite take_nil; simpl; lia|].
  destruct ds as [|b ds]; [simpl; rewrite take_nil; simpl; lia|].
  cbn [seq zip3 sign_inner]. rewrite flags_cons.
  destruct (Nat.eqb_spec s p) as [->|Hne].
  - rewrite Nat.sub_diag. simpl. lia.
  - replace (p - s)%nat with (S (p - S s)) by lia. cbn [take cnt].
    rewrite (orb_comm (is_even b)).
    destruct ((j =? 0) || is_even b); cbn [negb]; rewrite IH by lia; lia.
Qed.

Section SignLoops.
Variable self : FiniteGCAlgebra.

Lemma sign_outer_app (w2 : list Z) (l : list (nat * Z * Z))
    (p : nat) (i d c : Z) :
  sign_outer self w2 (l ++ [(p, i, d)]) c
  = if is_even d || (i =? 0) then sign_outer self w2 l c
    else sign_inner p (zip3 (seq 0 (__ngens self)) w2 (_degrees self))
           (sign_outer self w2 l c).
Proof.
  revert c. induction l as [|[[p' i'] d'] l IH]; intros c.
  - simpl. destruct (is_even d || (i =? 0)); reflexivity.
  - cbn [app sign_outer]. destruct (is_even d' || (i' =? 0)); apply IH.
Qed.

Lemma sign_outer_rev (w2 : list Z) (m s : nat) (w1 ds1 : list Z) (c : Z) :
  (s + m ≤ __ngens self)%nat →
  sign_outer self w2 (rev (zip3 (seq s m) w1 ds1)) c
  = c + flagged_sum (fun p => cnt (take p (flags (_degrees self) w2))) s
          (take m (flags ds1 w1)).
Proof.
  revert s w1 ds1 c. induction m as [|m IH]; intros s w1 ds1 c Hs.
  - simpl. lia.
  - destruct w1 as [|i w1]; [simpl; lia|].
    destruct ds1 as [|d ds1]; [simpl; lia|].
    cbn [seq zip3 rev]. rewrite sign_outer_app, IH by lia.
    rewrite flags_cons. cbn [take flagged_sum].
    destruct (is_even d || (i =? 0)); cbn [negb]; [lia|].
    rewrite sign_inner_spec by lia. rewrite Nat.sub_0_r. lia.
Qed.

(** The counter [c] computed by the two nested loops of [product_on_basis]. *)
Lemma sign_loops_inversions (w1 w2 : list Z) :
  well_formed self → length w1 = length (_degrees self) →
  sign_outer self w2
    (zip3 (rev (seq 0 (__ngens self))) (rev w1) (rev (_degrees self))) 0
  = inversions (flags (_degrees self) w1) (flags (_degrees self) w2).
Proof.
  intros WF L. unfold well_formed in WF.
  rewrite zip3_rev by (rewrite ?length_seq; lia).
  rewrite sign_outer_rev by lia.
  rewrite take_ge by (rewrite length_flags; lia).
  rewrite flagged_sum_inversions. lia.
Qed.
End SignLoops.

(** ** Elements of the free module *)



Lemma scal_1 (x : elt) : scal 1 x = x.
Proof.
  unfold scal. simpl. apply map_eq. intros i. rewrite lookup_fmap.
  destruct (x !! i) as [c|]; simpl; [f_equal; lia|reflexivity].
Qed.



Lemma add_zero_l (x : elt) : add zero x = x.
Proof. unfold add, zero. apply (left_id ∅ _). Qed.


(** ** The product on basis indices *)


Lemma sign_inner_zeros (p : nat) (l : list (nat * Z * Z)) (c : Z) :
  (∀ q j b, In (q, j, b) l → j = 0) → sign_inner p l c = c.
Proof.
  revert c. induction l as [|[[q j] b] l IH]; intros c H; simpl; [reflexivity|].
  destruct (q =? p)%nat; [reflexivity|].
  rewrite (H q j b) by (left; reflexivity). simpl.
  apply IH. intros q' j' b' Hin. apply (H q' j' b'). right. exact Hin.
Qed.

Lemma zip3_In_2 {A B C : Type} (a : list A) (b : list B) (c : list C)
    (x : A) (y : B) (z : C) :
  In (x, y, z) (zip3 a b c) → In y b.
Proof.
  revert b c. induction a as [|x' a IH]; intros [|y' b] [|z' c] H;
    simpl in *; try contradiction.
  destruct H as [H|H]; [left; congruence|right; eapply IH, H].
Qed.

Section ProductOnBasis.
Variable self : FiniteGCAlgebra.


Lemma sign_outer_zeros_l (w2 : list Z) (l : list (nat * Z * Z)) (c : Z) :
  (∀ p i d, In (p, i, d) l → i = 0) → sign_outer self w2 l c = c.
Proof.
  revert c. induction l as [|[[p i] d] l IH]; intros c H; simpl; [reflexivity|].
  rewrite (H p i d) by (left; reflexivity). simpl. rewrite orb_true_r.
  apply IH. intros p' i' d' Hin. apply (H p' i' d'). right. exact Hin.
Qed.

Lemma sign_outer_zeros_r (n : nat) (l : list (nat * Z * Z)) (c : Z) :
  sign_outer self (replicate n 0) l c = c.
Proof.
  revert c. induction l as [|[[p i] d] l IH]; intros c; simpl; [reflexivity|].
  destruct (is_even d || (i =? 0)); [apply IH|].
  rewrite sign_inner_zeros; [apply IH|].
  intros q j b Hin. apply zip3_In_2 in Hin.
  apply list_elem_of_In, elem_of_replicate in Hin. tauto.
Qed.

(** The three exits of [product_on_basis] on elements of the parent. *)
Lemma product_on_basis_truncated (w1 w2 : list Z) :
  _max_deg self < grading (_degrees self) w1 + grading (_degrees self) w2 →
  product_on_basis self w1 w2 = Ok zero.
Proof.
  intros H. unfold product_on_basis.
  destruct (Z.ltb_spec (_max_deg self)
    (grading (_degrees self) w1 + grading (_degrees self) w2)); [reflexivity|lia].
Qed.

Lemma product_on_basis_unfold (w1 w2 : list Z) :
  weighted_vector (_degrees self) w1 → weighted_vector (_degrees self) w2 →
  product_on_basis self w1 w2
  = Ok (if (_max_deg self
              <? grading (_degrees self) w1 + grading (_degrees self) w2)
           || negb (_valid_index self (zip_with Z.add w1 w2))
        then zero
        else scal
               ((-1) ^ sign_outer self w2
                         (zip3 (rev (seq 0 (__ngens self))) (rev w1)
                            (rev (_degrees self))) 0)
               (monomial (zip_with Z.add w1 w2))).
Proof.
  intros H1 H2. unfold product_on_basis.
  destruct (_max_deg self
              <? grading (_degrees self) w1 + grading (_degrees self) w2);
    [reflexivity|].
  rewrite weighted_vectors_call_Ok by (apply weighted_vector_add; assumption).
  rewrite bind_Ok. simpl.
  destruct (_valid_index self (zip_with Z.add w1 w2)); reflexivity.
Qed.

Lemma product_on_basis_returns (w1 w2 : list Z) :
  weighted_vector (_degrees self) w1 → weighted_vector (_degrees self) w2 →
  returns (product_on_basis self w1 w2).
Proof.
  intros H1 H2. rewrite product_on_basis_unfold by assumption.
  eexists. reflexivity.
Qed.

Lemma product_on_basis_invalid (w1 w2 : list Z) :
  weighted_vector (_degrees self) w1 → weighted_vector (_degrees self) w2 →
  _valid_index self (zip_with Z.add w1 w2) = false →
  product_on_basis self w1 w2 = Ok zero.
Proof.
  intros H1 H2 V. rewrite product_on_basis_unfold, V by assumption.
  rewrite orb_true_r. reflexivity.
Qed.

Lemma product_on_basis_monomial (w1 w2 : list Z) :
  well_formed self →
  weighted_vector (_degrees self) w1 → weighted_vector (_degrees self) w2 →
  grading (_degrees self) w1 + grading (_degrees self) w2 ≤ _max_deg self →
  _valid_index self (zip_with Z.add w1 w2) = true →
  product_on_basis self w1 w2
  = Ok (scal ((-1) ^ inversions (flags (_degrees self) w1)
                        (flags (_degrees self) w2))
          (monomial (zip_with Z.add w1 w2))).
Proof.
  intros WF H1 H2 G V. rewrite product_on_basis_unfold, V by assumption.
  destruct (Z.ltb_spec (_max_deg self)
    (grading (_degrees self) w1 + grading (_degrees self) w2)); [lia|].
  simpl. rewrite sign_loops_inversions by (auto; apply H1). reflexivity.
Qed.
End ProductOnBasis.

(** ** The documentation's examples *)

Lemma A_4_8_2_constructed :
  FiniteGCAlgebra_call (NamesStr "x,y,z") (Some [4; 8; 2]) (MaxInt 10)
  = Ok A_4_8_2.
Proof. vm_compute. reflexivity. Qed.

Lemma A_1_2_3_constructed :
  FiniteGCAlgebra_call (NamesStr "x,y,z") (Some [1; 2; 3]) (MaxInt 5)
  = Ok A_1_2_3.
Proof. vm_compute. reflexivity. Qed.

Lemma A_1_2_3_max10_constructed :
  FiniteGCAlgebra_call (NamesStr "x,y,z") (Some [1; 2; 3]) (MaxInt 10)
  = Ok A_1_2_3_max10.
Proof. vm_compute. reflexivity. Qed.

(** The doctests of [product_on_basis]. *)
Lemma product_on_basis_doctests :
  product_on_basis A_4_8_2 [1; 0; 1] [0; 0; 0] = Ok (monomial [1; 0; 1])
  ∧ product_on_basis A_1_2_3 [1; 0; 0] [0; 0; 1] = Ok (monomial [1; 0; 1])
  ∧ product_on_basis A_1_2_3 [0; 0; 1] [1; 0; 0]
    = Ok (scal (-1) (monomial [1; 0; 1]))
  ∧ product_on_basis A_1_2_3_max10 [1; 1; 0] [0; 1; 1]
    = Ok (monomial [1; 2; 1])
  ∧ product_on_basis A_1_2_3_max10 [0; 1; 1] [1; 1; 0]
    = Ok (scal (-1) (monomial [1; 2; 1])).
Proof. repeat split; vm_compute; reflexivity. Qed.

(** A tactic for the side conditions of the worked examples. *)
Ltac concrete :=
  first
    [ reflexivity
    | split; [reflexivity | repeat constructor; lia]
    | vm_compute; reflexivity
    | vm_compute; lia
    | vm_compute; discriminate ].

(** ** Degree truncation *)

(** C4. For every pair of elements [w1], [w2] of the parent of exponent
    vectors (in particular for every pair of basis indices),
    [product_on_basis(w1, w2)] returns without raising, and when
    [grading(w1) + grading(w2) > max_degree] it returns the zero element. *)
Theorem degree_truncation (self : FiniteGCAlgebra) (w1 w2 : list Z) :
  weighted_vector (_degrees self) w1 →
  weighted_vector (_degrees self) w2 →
  returns (product_on_basis self w1 w2)
  ∧ (_max_deg self < grading (_degrees self) w1 + grading (_degrees self) w2 →
     product_on_basis self w1 w2 = Ok zero).
Proof.
  intros H1 H2. split.
  - apply product_on_basis_returns; assumption.
  - apply product_on_basis_truncated.
Qed.

Lemma degree_truncation_witness :
  weighted_vector (_degrees A_1_2_3) [1; 1; 0]
  ∧ weighted_vector (_degrees A_1_2_3) [0; 0; 1]
  ∧ _max_deg A_1_2_3
    < grading (_degrees A_1_2_3) [1; 1; 0] + grading (_degrees A_1_2_3) [0; 0; 1]
  ∧ product_on_basis A_1_2_3 [1; 1; 0] [0; 0; 1] = Ok zero.
Proof.
  assert (weighted_vector (_degrees A_1_2_3) [1; 1; 0]) as H1 by concrete.
  assert (weighted_vector (_degrees A_1_2_3) [0; 0; 1]) as H2 by concrete.
  assert (_max_deg A_1_2_3
    < grading (_degrees A_1_2_3) [1; 1; 0] + grading (_degrees A_1_2_3) [0; 0; 1])
    as H3 by concrete.
  split; [exact H1|]. split; [exact H2|]. split; [exact H3|].
  exact (proj2 (degree_truncation A_1_2_3 [1; 1; 0] [0; 0; 1] H1 H2) H3).
Defined.

(** ** Odd nilpotency *)

(** C5. [_valid_index(w)] is false exactly when some generator of odd degree
    has exponent greater than [1] in [w]; hence a vector with exponent [2] at
    a generator of odd degree is not in the index set, and a product whose
    entrywise sum has exponent greater than [1] at a generator of odd degree
    is zero. *)
Theorem odd_nilpotency :
  (∀ (self : FiniteGCAlgebra) (w : list Z),
     _valid_index self w = false
     ↔ ∃ (i : nat) (e d : Z),
         w !! i = Some e ∧ _degrees self !! i = Some d
         ∧ is_odd d = true ∧ 1 < e)
  ∧ (∀ (self : FiniteGCAlgebra) (w : list Z) (i : nat) (d : Z),
       _degrees self !! i = Some d → is_odd d = true → w !! i = Some 2 →
       in_indices self w = false)
  ∧ (∀ (self : FiniteGCAlgebra) (w1 w2 : list Z) (i : nat) (e1 e2 d : Z),
       weighted_vector (_degrees self) w1 →
       weighted_vector (_degrees self) w2 →
       w1 !! i = Some e1 → w2 !! i = Some e2 →
       _degrees self !! i = Some d → is_odd d = true → 1 < e1 + e2 →
       product_on_basis self w1 w2 = Ok zero).
Proof.
  split; [exact valid_index_false_iff|]. split.
  - intros self w i d Hd Hodd Hw. unfold in_indices.
    assert (_valid_index self w = false) as ->.
    { apply valid_index_false_iff. exists i, 2, d. auto with zarith. }
    apply andb_false_r.
  - intros self w1 w2 i e1 e2 d H1 H2 Hw1 Hw2 Hd Hodd He.
    apply product_on_basis_invalid; try assumption.
    apply valid_index_false_iff. exists i, (e1 + e2), d.
    split; [|auto]. apply lookup_zip_with_Some. exists e1, e2. auto.
Qed.

Lemma odd_nilpotency_witness :
  (_degrees A_1_2_3 !! 0%nat = Some 1 ∧ is_odd 1 = true
   ∧ [2; 0; 0] !! 0%nat = Some 2 ∧ in_indices A_1_2_3 [2; 0; 0] = false)
  ∧ (weighted_vector (_degrees A_1_2_3) [1; 0; 0]
     ∧ 1 < 1 + 1
     ∧ product_on_basis A_1_2_3 [1; 0; 0] [1; 0; 0] = Ok zero).
Proof.
  assert (weighted_vector (_degrees A_1_2_3) [1; 0; 0]) as H1 by concrete.
  split.
  - split; [reflexivity|]. split; [reflexivity|]. split; [reflexivity|].
    exact (proj1 (proj2 odd_nilpotency) A_1_2_3 [2; 0; 0] 0%nat 1
             eq_refl eq_refl eq_refl).
  - split; [exact H1|]. split; [lia|].
    exact (proj2 (proj2 odd_nilpotency) A_1_2_3 [1; 0; 0] [1; 0; 0] 0%nat 1 1 1
             H1 H1 eq_refl eq_refl eq_refl eq_refl ltac:(lia)).
Defined.

(** ** The identity *)

Lemma one_basis_eq (self : FiniteGCAlgebra) :
  one_basis self = Ok (replicate (length (_degrees self)) 0).
Proof.
  unfold one_basis. rewrite const_map_seq.
  apply weighted_vectors_call_Ok, weighted_vector_replicate.
Qed.

(** C6. [one_basis()] returns the all-zero vector, and for every valid
    exponent vector [w] with [grading(w) <= max_degree], the products of the
    identity's index with [w], on either side, are the monomial at [w] with
    coefficient [+1]. *)
Theorem identity_law (self : FiniteGCAlgebra) (w : list Z) :
  weighted_vector (_degrees self) w →
  _valid_index self w = true →
  grading (_degrees self) w ≤ _max_deg self →
  ∃ one : list Z,
    one_basis self = Ok one
    ∧ one = replicate (length (_degrees self)) 0
    ∧ product_on_basis self one w = Ok (scal 1 (monomial w))
    ∧ product_on_basis self w one = Ok (scal 1 (monomial w)).
Proof.
  intros Hw V G. exists (replicate (length (_degrees self)) 0).
  pose proof (weighted_vector_replicate (_degrees self)) as H0.
  assert (zip_with Z.add (replicate (length (_degrees self)) 0) w = w) as El
    by (apply zip_with_add_replicate_l, Hw).
  assert (zip_with Z.add w (replicate (length (_degrees self)) 0) = w) as Er
    by (rewrite zip_with_add_comm; exact El).
  split; [apply one_basis_eq|]. split; [reflexivity|]. split.
  - rewrite product_on_basis_unfold by assumption.
    rewrite grading_replicate_0, El, V.
    destruct (Z.ltb_spec (_max_deg self) (0 + grading (_degrees self) w));
      [lia|].
    simpl. rewrite sign_outer_zeros_l; [reflexivity|].
    intros p i d Hin. apply zip3_In_2 in Hin.
    apply in_rev, list_elem_of_In, elem_of_replicate in Hin. tauto.
  - rewrite product_on_basis_unfold by assumption.
    rewrite grading_replicate_0, Er, V.
    destruct (Z.ltb_spec (_max_deg self) (grading (_degrees self) w + 0));
      [lia|].
    simpl. rewrite sign_outer_zeros_r. reflexivity.
Qed.

Lemma identity_law_witness :
  weighted_vector (_degrees A_1_2_3) [1; 0; 1]
  ∧ _valid_index A_1_2_3 [1; 0; 1] = true
  ∧ grading (_degrees A_1_2_3) [1; 0; 1] ≤ _max_deg A_1_2_3
  ∧ ∃ one : list Z,
      one_basis A_1_2_3 = Ok one
      ∧ one = replicate (length (_degrees A_1_2_3)) 0
      ∧ product_on_basis A_1_2_3 one [1; 0; 1] = Ok (scal 1 (monomial [1; 0; 1]))
      ∧ product_on_basis A_1_2_3 [1; 0; 1] one = Ok (scal 1 (monomial [1; 0; 1])).
Proof.
  assert (weighted_vector (_degrees A_1_2_3) [1; 0; 1]) as H1 by concrete.
  assert (_valid_index A_1_2_3 [1; 0; 1] = true) as H2 by reflexivity.
  assert (grading (_degrees A_1_2_3) [1; 0; 1] ≤ _max_deg A_1_2_3) as H3
    by concrete.
  split; [exact H1|]. split; [exact H2|]. split; [exact H3|].
  exact (identity_law A_1_2_3 [1; 0; 1] H1 H2 H3).
Defined.

(** ** Graded homogeneity *)



(** ** The sign as a number of pairs *)










(** ** The sign algorithm *)



(** ** Super-commutativity *)





(** Without one degree per generator the sign rule is lost: an algebra built
    with one name and two degrees of [1] multiplies its two degree-one
    monomials to the same element in both orders. *)
Lemma mismatched_names_break_sign :
  ∃ self : FiniteGCAlgebra,
    FiniteGCAlgebra_call (NamesSeq ["x"]) (Some [1; 1]) (MaxInt 2) = Ok self
    ∧ in_indices self [1; 0] = true
    ∧ in_indices self [0; 1] = true
    ∧ product_on_basis self [1; 0] [0; 1] = Ok (monomial [1; 1])
    ∧ product_on_basis self [0; 1] [1; 0] = Ok (monomial [1; 1])
    ∧ monomial [1; 1]
      ≠ scal ((-1) ^ (grading (_degrees self) [1; 0]
                      * grading (_degrees self) [0; 1])) (monomial [1; 1]).
Proof.
  eexists. split; [vm_compute; reflexivity|].
  repeat (split; [vm_compute; reflexivity|]).
  intros H. apply (f_equal (fun m : elt => m !! [1; 1])) in H.
  vm_compute in H. discriminate.
Qed.

(** ** The bilinear product *)



Section Product.
Variable self : FiniteGCAlgebra.






Hypothesis WF : well_formed self.
Variables w1 w2 w3 : list Z.
Hypothesis H1 : weighted_vector (_degrees self) w1.
Hypothesis H2 : weighted_vector (_degrees self) w2.
Hypothesis H3 : weighted_vector (_degrees self) w3.
Hypothesis G1 : 0 ≤ grading (_degrees self) w1.
Hypothesis G2 : 0 ≤ grading (_degrees self) w2.
Hypothesis G3 : 0 ≤ grading (_degrees self) w3.
Hypothesis G :
  grading (_degrees self) w1 + grading (_degrees self) w2
  + grading (_degrees self) w3 ≤ _max_deg self.


End Product.

(** ** Associativity *)



(** ** The index set *)

Lemma gcd_nonneg (ds : list Z) : 0 ≤ gcd ds.
Proof. destruct ds; simpl; [lia|apply Z.gcd_nonneg]. Qed.

Lemma gcd_divide (ds : list Z) (d : Z) : In d ds → (gcd ds | d).
Proof.
  induction ds as [|x ds IH]; intros Hin; [contradiction|].
  simpl. destruct Hin as [->|Hin].
  - apply Z.gcd_divide_l.
  - etransitivity; [apply Z.gcd_divide_r|apply IH, Hin].
Qed.

Lemma grading_divide (g : Z) (ds w : list Z) :
  (∀ d, In d ds → (g | d)) → (g | grading ds w).
Proof.
  revert w. induction ds as [|d ds IH]; intros w H.
  - rewrite grading_nil_r. apply Z.divide_0_r.
  - destruct w as [|e w]; [apply Z.divide_0_r|].
    rewrite grading_cons. apply Z.divide_add_r.
    + apply Z.divide_mul_r, H. left. reflexivity.
    + apply IH. intros d' Hd'. apply H. right. exact Hd'.
Qed.

Lemma py_max_ge (l : list Z) (m : Z) :
  py_max l = Ok m → ∀ d, In d l → d ≤ m.
Proof.
  destruct l as [|x l]; [discriminate|]. simpl. intros H. injection H as <-.
  assert (∀ (l : list Z) (a : Z),
            a ≤ fold_left Z.max l a
            ∧ ∀ d, In d l → d ≤ fold_left Z.max l a) as Hfold.
  { clear. induction l as [|y l IH]; intros a; simpl; [split; [lia|tauto]|].
    destruct (IH (Z.max a y)) as [Ha Hl]. split; [lia|].
    intros d [->|Hd]; [lia|apply Hl, Hd]. }
  intros d [->|Hd]; [apply (proj1 (Hfold l _))|apply (proj2 (Hfold l _)), Hd].
Qed.

Lemma init_inv (names : list string) (degrees : list Z)
    (max_degree : max_degree_arg) (self : FiniteGCAlgebra) :
  __init__ names degrees max_degree = Ok self →
  ∃ m mx : Z,
    max_degree = MaxInt m ∧ py_max degrees = Ok mx ∧ mx ≤ m
    ∧ py_range 0 m (gcd degrees) = Ok (_universe self)
    ∧ _names self = names ∧ __ngens self = length names
    ∧ _degrees self = degrees ∧ _max_deg self = m.
Proof.
  unfold __init__. destruct max_degree as [|m|]; try discriminate.
  destruct (py_max degrees) as [mx|] eqn:Hmx; [|discriminate].
  rewrite bind_Ok. destruct (Z.ltb_spec m mx) as [Hlt|Hge]; [discriminate|].
  destruct (py_range 0 m (gcd degrees)) as [u|] eqn:Hu; [|discriminate].
  rewrite bind_Ok. intros Heq. injection Heq as <-. simpl.
  exists m, mx. repeat split; auto.
Qed.

(** The index set that [__init__] builds: the valid exponent vectors of
    grading at least [0] and strictly below [max_degree]. *)
Lemma in_indices_iff (names : list string) (degrees : list Z)
    (max_degree : max_degree_arg) (self : FiniteGCAlgebra) (w : list Z) :
  __init__ names degrees max_degree = Ok self →
  in_indices self w = true
  ↔ weighted_vector (_degrees self) w
    ∧ _valid_index self w = true
    ∧ 0 ≤ grading (_degrees self) w < _max_deg self.
Proof.
  intros Hinit.
  destruct (init_inv _ _ _ _ Hinit)
    as (m & mx & _ & Hmx & Hle & Hu & _ & _ & Hd & Hm).
  rewrite Hd, Hm in *.
  assert (0 < gcd degrees) as Hstep.
  { pose proof (gcd_nonneg degrees). unfold py_range in Hu.
    destruct (Z.eqb_spec (gcd degrees) 0); [discriminate|lia]. }
  pose proof (py_range_In _ _ _ Hu Hstep) as Hin.
  unfold in_indices, in_universe. rewrite Hd.
  rewrite andb_true_iff, existsb_exists. split.
  - intros [(k & Hk & Hsub) V].
    unfold in_subset in Hsub. apply andb_true_iff in Hsub as [Hw Hg].
    apply is_weighted_vector_spec in Hw. apply Z.eqb_eq in Hg.
    apply Hin in Hk. subst k. tauto.
  - intros (Hw & V & Hg). split; [|exact V].
    exists (grading degrees w). split.
    + apply Hin. split; [exact Hg|].
      apply grading_divide. intros d. apply gcd_divide.
    + unfold in_subset. apply andb_true_iff. split.
      * apply is_weighted_vector_spec, Hw.
      * apply Z.eqb_refl.
Qed.

(** C1. The index set misses the top degree: for degrees [(4,8,2)] and
    maximal degree [10], the vector [[0,0,5]] is an exponent vector with
    non-negative entries, no generator of odd degree, and grading
    [4*0 + 8*0 + 2*5 = 10 <= 10], yet it is not in the index set that the
    constructor builds; the index set holds exactly the valid vectors of
    grading strictly below [max_degree]. *)
Theorem basis_misses_top_degree :
  FiniteGCAlgebra_call (NamesStr "x,y,z") (Some [4; 8; 2]) (MaxInt 10)
  = Ok A_4_8_2
  ∧ weighted_vector (_degrees A_4_8_2) [0; 0; 5]
  ∧ _valid_index A_4_8_2 [0; 0; 5] = true
  ∧ grading (_degrees A_4_8_2) [0; 0; 5] = 10
  ∧ grading (_degrees A_4_8_2) [0; 0; 5] ≤ _max_deg A_4_8_2
  ∧ in_indices A_4_8_2 [0; 0; 5] = false
  ∧ product_on_basis A_4_8_2 [0; 0; 4] [0; 0; 1] = Ok (monomial [0; 0; 5])
  ∧ (∀ w : list Z,
       in_indices A_4_8_2 w = true
       ↔ weighted_vector (_degrees A_4_8_2) w
         ∧ _valid_index A_4_8_2 w = true
         ∧ 0 ≤ grading (_degrees A_4_8_2) w < _max_deg A_4_8_2).
Proof.
  split; [vm_compute; reflexivity|].
  split; [concrete|].
  split; [reflexivity|].
  split; [reflexivity|].
  split; [vm_compute; discriminate|].
  split; [reflexivity|].
  split; [vm_compute; reflexivity|].
  intros w. apply (in_indices_iff ["x"; "y"; "z"] [4; 8; 2] (MaxInt 10)).
  vm_compute. reflexivity.
Qed.

(** ** Construction *)






(** ** Generators *)

Section Generators.
Variable self : FiniteGCAlgebra.

Lemma weighted_vector_unit (k : nat) :
  weighted_vector (_degrees self) (unit_vector (length (_degrees self)) k).
Proof.
  unfold unit_vector. split.
  - rewrite length_insert, length_replicate. reflexivity.
  - apply List.Forall_forall. intros e He.
    apply list_elem_of_In in He.
    assert (Forall (fun e => 0 ≤ e)
              (<[k := 1]> (replicate (length (_degrees self)) 0))) as F.
    { apply Forall_insert; [|lia]. apply Forall_replicate. lia. }
    rewrite Forall_forall in F. apply F, He.
Qed.

Lemma gens_indices_eq (ks : list nat) :
  Forall (fun k => (k < length (_degrees self))%nat) ks →
  gens_indices self (replicate (length (_degrees self)) 0) ks
  = Ok (map (unit_vector (length (_degrees self))) ks).
Proof.
  induction 1 as [|k ks Hk _ IH]; [reflexivity|].
  cbn [gens_indices]. unfold py_setitem. rewrite length_replicate.
  destruct (Nat.ltb_spec k (length (_degrees self))); [|lia].
  rewrite bind_Ok. fold (unit_vector (length (_degrees self)) k).
  rewrite weighted_vectors_call_Ok by apply weighted_vector_unit.
  rewrite bind_Ok, IH. reflexivity.
Qed.

Lemma gens_eq :
  gens self
  = Ok (map (fun k => monomial (unit_vector (length (_degrees self)) k))
          (seq 0 (length (_degrees self)))).
Proof.
  unfold gens. rewrite const_map_seq, gens_indices_eq.
  - rewrite bind_Ok, map_map. reflexivity.
  - apply List.Forall_forall. intros k Hk. apply in_seq in Hk. lia.
Qed.
End Generators.

(** The counterexample to the bounds check: index [-1] returns the last
    generator. *)
Lemma gen_negative_index_returns :
  ¬ (0 ≤ -1 < Z.of_nat (length (_degrees A_4_8_2)))
  ∧ gen A_4_8_2 (-1) = Ok (monomial [0; 0; 1])
  ∧ ¬ raises (gen A_4_8_2 (-1)).
Proof.
  assert (gen A_4_8_2 (-1) = Ok (monomial [0; 0; 1])) as H
    by (vm_compute; reflexivity).
  split; [lia|]. split; [exact H|].
  intros [e He]. rewrite H in He. discriminate.
Qed.

(** C9 (amended). With [n] the number of degrees of the algebra, [gen(i)]
    returns the [i]-th generator for [0 <= i < n], the [(n+i)]-th generator
    for [-n <= i < 0], and raises [IndexError] for [i < -n] and for
    [i >= n]. *)
Theorem generator_access (self : FiniteGCAlgebra) (i : Z) :
  let n := length (_degrees self) in
  (0 ≤ i < Z.of_nat n →
   gen self i = Ok (monomial (unit_vector n (Z.to_nat i))))
  ∧ (- Z.of_nat n ≤ i < 0 →
     gen self i = Ok (monomial (unit_vector n (Z.to_nat (i + Z.of_nat n)))))
  ∧ (i < - Z.of_nat n ∨ Z.of_nat n ≤ i → gen self i = Raise IndexError).
Proof.
  intros n. unfold gen. rewrite gens_eq, bind_Ok. fold n.
  unfold py_getitem. rewrite length_map, length_seq.
  assert (∀ j : Z, 0 ≤ j < Z.of_nat n →
            map (fun k => monomial (unit_vector n k)) (seq 0 n) !! Z.to_nat j
            = Some (monomial (unit_vector n (Z.to_nat j)))) as Hlook.
  { intros j Hj. change (map ?f ?l) with (f <$> l).
    rewrite list_lookup_fmap, lookup_seq_lt by lia. reflexivity. }
  repeat split.
  - intros Hi. destruct (Z.ltb_spec i 0); [lia|].
    destruct (Z.ltb_spec i 0), (Z.leb_spec (Z.of_nat n) i); try lia.
    simpl. rewrite Hlook by lia. reflexivity.
  - intros Hi. destruct (Z.ltb_spec i 0); [|lia].
    destruct (Z.ltb_spec (i + Z.of_nat n) 0),
      (Z.leb_spec (Z.of_nat n) (i + Z.of_nat n)); try lia.
    simpl. rewrite Hlook by lia. reflexivity.
  - intros Hi. destruct (Z.ltb_spec i 0).
    + destruct (Z.ltb_spec (i + Z.of_nat n) 0); [reflexivity|lia].
    + destruct (Z.ltb_spec i 0); [lia|].
      destruct (Z.leb_spec (Z.of_nat n) i); [reflexivity|lia].
Qed.

Lemma generator_access_witness :
  (0 ≤ 1 < Z.of_nat (length (_degrees A_4_8_2))
   ∧ gen A_4_8_2 1 = Ok (monomial [0; 1; 0]))
  ∧ (- Z.of_nat (length (_degrees A_4_8_2)) ≤ -1 < 0
     ∧ gen A_4_8_2 (-1) = Ok (monomial [0; 0; 1]))
  ∧ ((3 < - Z.of_nat (length (_degrees A_4_8_2))
      ∨ Z.of_nat (length (_degrees A_4_8_2)) ≤ 3)
     ∧ gen A_4_8_2 3 = Raise IndexError)
  ∧ ((-4 < - Z.of_nat (length (_degrees A_4_8_2))
      ∨ Z.of_nat (length (_degrees A_4_8_2)) ≤ -4)
     ∧ gen A_4_8_2 (-4) = Raise IndexError).
Proof.
  assert (0 ≤ 1 < Z.of_nat (length (_degrees A_4_8_2))) as H1
    by (simpl; lia).
  assert (- Z.of_nat (length (_degrees A_4_8_2)) ≤ -1 < 0) as H2
    by (simpl; lia).
  assert (3 < - Z.of_nat (length (_degrees A_4_8_2))
          ∨ Z.of_nat (length (_degrees A_4_8_2)) ≤ 3) as H3
    by (right; simpl; lia).
  assert (-4 < - Z.of_nat (length (_degrees A_4_8_2))
          ∨ Z.of_nat (length (_degrees A_4_8_2)) ≤ -4) as H4
    by (left; simpl; lia).
  split; [split; [exact H1|]|].
  { exact (proj1 (generator_access A_4_8_2 1) H1). }
  split; [split; [exact H2|]|].
  { exact (proj1 (proj2 (generator_access A_4_8_2 (-1))) H2). }
  split; [split; [exact H3|]|split; [exact H4|]].
  - exact (proj2 (proj2 (generator_access A_4_8_2 3)) H3).
  - exact (proj2 (proj2 (generator_access A_4_8_2 (-4))) H4).
Defined.

(** * Further properties of the class *)

(** ** Normalisation of the constructor's arguments *)

Lemma classcall_inv (names : names_arg) (degrees : option (list Z))
    (md md' : max_degree_arg) (ns : list string) (ds : list Z) :
  __classcall_private__ names degrees md = Ok (ns, ds, md') →
  md' = md ∧ md ≠ MaxNone
  ∧ ns = match names with
         | NamesNone => default_names (length ds)
         | NamesStr s => py_split "," s
         | NamesSeq l => l
         end
  ∧ ds = match degrees with
         | Some d => d
         | None => replicate (length ns) 1
         end
  ∧ (names = NamesNone → degrees ≠ None).
Proof.
  unfold __classcall_private__, default_names.
  destruct md; [discriminate| |];
    destruct names, degrees; simpl; try discriminate;
    intros H; injection H as <- <- <-;
    rewrite ?const_map_seq; repeat split; congruence.
Qed.

Lemma call_inv (names : names_arg) (degrees : option (list Z))
    (md : max_degree_arg) (self : FiniteGCAlgebra) :
  FiniteGCAlgebra_call names degrees md = Ok self →
  ∃ (ns : list string) (ds : list Z),
    __classcall_private__ names degrees md = Ok (ns, ds, md)
    ∧ __init__ ns ds md = Ok self.
Proof.
  unfold FiniteGCAlgebra_call.
  destruct (__classcall_private__ names degrees md) as [[[ns ds] md']|e] eqn:Hc;
    [|discriminate].
  rewrite bind_Ok. cbn beta iota. intros Hi.
  destruct (classcall_inv _ _ _ _ _ _ Hc) as (-> & _).
  exists ns, ds. auto.
Qed.

Lemma default_names_NoDup (n : nat) : NoDup (default_names n).
Proof.
  unfold default_names. change (map ?f ?l) with (f <$> l).
  apply NoDup_fmap_2; [|apply NoDup_seq].
  intros i j H. apply (inj (String.append "x")) in H.
  apply (inj pretty) in H. exact H.
Qed.

(** X1. What a successful construction guarantees: the degrees are not
    empty, none exceeds [maximal_degree()], they are not all zero,
    [ngens()] is the number of names, and the slices of the universe are the
    multiples of the gcd of the degrees from [0] up to, and not including,
    the maximal degree. *)
Theorem constructed_invariants (names : names_arg)
    (degrees : option (list Z)) (md : max_degree_arg)
    (self : FiniteGCAlgebra) :
  FiniteGCAlgebra_call names degrees md = Ok self →
  md = MaxInt (maximal_degree self)
  ∧ _degrees self ≠ []
  ∧ (∀ d, In d (_degrees self) → d ≤ maximal_degree self)
  ∧ 0 < gcd (_degrees self)
  ∧ ngens self = length (_names self)
  ∧ (∀ k, In k (_universe self)
          ↔ 0 ≤ k < maximal_degree self ∧ (gcd (_degrees self) | k)).
Proof.
  intros Hcall. destruct (call_inv _ _ _ _ Hcall) as (ns & ds & _ & Hinit).
  destruct (init_inv _ _ _ _ Hinit)
    as (m & mx & -> & Hmx & Hle & Hu & Hn & Hg & Hd & Hm).
  unfold maximal_degree, ngens. rewrite Hd, Hm, Hn, Hg.
  assert (0 < gcd ds) as Hstep.
  { pose proof (gcd_nonneg ds). unfold py_range in Hu.
    destruct (Z.eqb_spec (gcd ds) 0); [discriminate|lia]. }
  split; [reflexivity|]. split; [intros ->; discriminate|].
  split; [intros d Hin; pose proof (py_max_ge _ _ Hmx d Hin); lia|].
  split; [exact Hstep|]. split; [reflexivity|].
  apply py_range_In; assumption.
Qed.

Lemma constructed_invariants_witness :
  FiniteGCAlgebra_call (NamesStr "x,y,z") (Some [4; 8; 2]) (MaxInt 10)
  = Ok A_4_8_2
  ∧ (∀ k, In k (_universe A_4_8_2)
          ↔ 0 ≤ k < maximal_degree A_4_8_2 ∧ (gcd (_degrees A_4_8_2) | k)).
Proof.
  assert (FiniteGCAlgebra_call (NamesStr "x,y,z") (Some [4; 8; 2]) (MaxInt 10)
          = Ok A_4_8_2) as H by (vm_compute; reflexivity).
  split; [exact H|].
  exact (proj2 (proj2 (proj2 (proj2 (proj2
           (constructed_invariants _ _ _ _ H)))))).
Defined.

(** X2. When [names] is omitted, the generators are named [x0], [x1], ...,
    one per degree: the names are pairwise distinct, the degrees are the ones
    given, and the algebra has as many names as degrees. *)
Theorem omitted_names_default (ds : list Z) (md : max_degree_arg)
    (self : FiniteGCAlgebra) :
  FiniteGCAlgebra_call NamesNone (Some ds) md = Ok self →
  _names self = default_names (length ds)
  ∧ NoDup (_names self)
  ∧ _degrees self = ds
  ∧ well_formed self.
Proof.
  intros Hcall. destruct (call_inv _ _ _ _ Hcall) as (ns & ds' & Hc & Hinit).
  destruct (classcall_inv _ _ _ _ _ _ Hc) as (_ & _ & -> & -> & _).
  destruct (init_inv _ _ _ _ Hinit)
    as (m & mx & _ & _ & _ & _ & Hn & Hg & Hd & _).
  unfold well_formed. rewrite Hn, Hg, Hd.
  split; [reflexivity|]. split; [apply default_names_NoDup|].
  split; [reflexivity|].
  unfold default_names. rewrite length_map, length_seq. reflexivity.
Qed.

Lemma omitted_names_default_witness :
  FiniteGCAlgebra_call NamesNone (Some [1; 2; 3]) (MaxInt 5)
  = Ok {| _names := ["x0"; "x1"; "x2"]; __ngens := 3; _degrees := [1; 2; 3];
          _max_deg := 5; _universe := [0; 1; 2; 3; 4] |}
  ∧ well_formed
      {| _names := ["x0"; "x1"; "x2"]; __ngens := 3; _degrees := [1; 2; 3];
         _max_deg := 5; _universe := [0; 1; 2; 3; 4] |}.
Proof.
  assert (FiniteGCAlgebra_call NamesNone (Some [1; 2; 3]) (MaxInt 5)
  = Ok {| _names := ["x0"; "x1"; "x2"]; __ngens := 3; _degrees := [1; 2; 3];
          _max_deg := 5; _universe := [0; 1; 2; 3; 4] |}) as H
    by (vm_compute; reflexivity).
  split; [exact H|].
  exact (proj2 (proj2 (proj2 (omitted_names_default _ _ _ H)))).
Defined.

(** X3. When [degrees] is omitted, every generator has degree [1]: the
    algebra has as many degrees as names, the maximal degree is at least
    [1], and an exponent vector is a valid index exactly when no entry
    exceeds [1]. *)
Theorem omitted_degrees_default (names : names_arg) (md : max_degree_arg)
    (self : FiniteGCAlgebra) :
  FiniteGCAlgebra_call names None md = Ok self →
  _degrees self = replicate (ngens self) 1
  ∧ well_formed self
  ∧ 1 ≤ maximal_degree self
  ∧ (∀ w : list Z,
       weighted_vector (_degrees self) w →
       (_valid_index self w = true ↔ Forall (fun e => e ≤ 1) w)).
Proof.
  intros Hcall.
  destruct (constructed_invariants _ _ _ _ Hcall) as (_ & Hne & Hmax & _).
  destruct (call_inv _ _ _ _ Hcall) as (ns & ds & Hc & Hinit).
  destruct (classcall_inv _ _ _ _ _ _ Hc) as (_ & _ & _ & -> & _).
  destruct (init_inv _ _ _ _ Hinit)
    as (m & mx & _ & _ & _ & _ & Hn & Hg & Hd & _).
  unfold ngens, well_formed in *. rewrite Hg, Hd in *.
  split; [reflexivity|]. split; [rewrite length_replicate; reflexivity|].
  split.
  { apply Hmax. destruct ns; [contradiction Hne; reflexivity|]. left.
    reflexivity. }
  intros w [Hl Hw]. rewrite valid_index_true_iff, Hd. split.
  - intros H. apply List.Forall_forall. intros e He.
    apply list_elem_of_In, list_elem_of_lookup in He as [i Hi].
    apply (H i e 1 Hi); [|reflexivity].
    apply lookup_replicate. split; [reflexivity|].
    apply lookup_lt_Some in Hi. rewrite length_replicate in Hl. lia.
  - intros H i e d Hi _ _. rewrite List.Forall_forall in H.
    apply H, list_elem_of_In, list_elem_of_lookup. eauto.
Qed.

Lemma omitted_degrees_default_witness :
  FiniteGCAlgebra_call (NamesStr "x,y") None (MaxInt 2)
  = Ok {| _names := ["x"; "y"]; __ngens := 2; _degrees := [1; 1];
          _max_deg := 2; _universe := [0; 1] |}
  ∧ weighted_vector [1; 1] [1; 0]
  ∧ (_valid_index {| _names := ["x"; "y"]; __ngens := 2; _degrees := [1; 1];
                     _max_deg := 2; _universe := [0; 1] |} [1; 0] = true
     ↔ Forall (fun e => e ≤ 1) [1; 0]).
Proof.
  assert (FiniteGCAlgebra_call (NamesStr "x,y") None (MaxInt 2)
  = Ok {| _names := ["x"; "y"]; __ngens := 2; _degrees := [1; 1];
          _max_deg := 2; _universe := [0; 1] |}) as H
    by (vm_compute; reflexivity).
  assert (weighted_vector [1; 1] [1; 0]) as Hw by concrete.
  split; [exact H|]. split; [exact Hw|].
  exact (proj2 (proj2 (proj2 (omitted_degrees_default _ _ _ H))) [1; 0] Hw).
Defined.

(** X4. A constructed algebra has as many names as degrees exactly when
    [names] or [degrees] was omitted or the two were given with the same
    length; a comma-separated string counts one name per piece. *)
Theorem constructed_well_formed_iff (names : names_arg)
    (degrees : option (list Z)) (md : max_degree_arg)
    (self : FiniteGCAlgebra) :
  FiniteGCAlgebra_call names degrees md = Ok self →
  (well_formed self
   ↔ match names, degrees with
     | NamesSeq l, Some ds => length l = length ds
     | NamesStr s, Some ds => length (py_split "," s) = length ds
     | _, _ => True
     end).
Proof.
  intros Hcall. destruct (call_inv _ _ _ _ Hcall) as (ns & ds & Hc & Hinit).
  destruct (classcall_inv _ _ _ _ _ _ Hc) as (_ & _ & Hns & Hds & Hboth).
  destruct (init_inv _ _ _ _ Hinit)
    as (m & mx & _ & _ & _ & _ & Hn & Hg & Hd & _).
  unfold well_formed. rewrite Hg, Hd.
  destruct names, degrees; subst ns; try subst ds;
    unfold default_names;
    rewrite ?length_map, ?length_seq, ?length_replicate; tauto.
Qed.

Lemma constructed_well_formed_iff_witness :
  FiniteGCAlgebra_call (NamesSeq ["x"]) (Some [1; 1]) (MaxInt 2)
  = Ok {| _names := ["x"]; __ngens := 1; _degrees := [1; 1];
          _max_deg := 2; _universe := [0; 1] |}
  ∧ (well_formed {| _names := ["x"]; __ngens := 1; _degrees := [1; 1];
                    _max_deg := 2; _universe := [0; 1] |}
     ↔ length ["x"] = length [1; 1]).
Proof.
  assert (FiniteGCAlgebra_call (NamesSeq ["x"]) (Some [1; 1]) (MaxInt 2)
  = Ok {| _names := ["x"]; __ngens := 1; _degrees := [1; 1];
          _max_deg := 2; _universe := [0; 1] |}) as H
    by (vm_compute; reflexivity).
  split; [exact H|].
  exact (constructed_well_formed_iff _ _ _ _ H).
Defined.

(** ** The index set of a constructed algebra *)

Lemma grading_power_vector (ds : list Z) (n i : nat) (k : Z) :
  grading ds (power_vector n i k)
  = if (i <? n)%nat then k * nth i ds 0 else 0.
Proof.
  unfold power_vector. revert ds i.
  induction n as [|n IH]; intros ds i; [reflexivity|].
  destruct i as [|i]; destruct ds as [|d ds]; simpl replicate.
  - rewrite grading_nil_r. cbn [nth]. destruct (0 <? S n)%nat; lia.
  - change (<[0%nat := k]> (0 :: replicate n 0)) with (k :: replicate n 0).
    rewrite grading_cons, grading_replicate_0. cbn [nth].
    destruct (Nat.ltb_spec 0 (S n)); lia.
  - rewrite grading_nil_r. cbn [nth]. destruct (S i <? S n)%nat; lia.
  - change (<[S i := k]> (0 :: replicate n 0))
      with (0 :: <[i := k]> (replicate n 0)).
    rewrite grading_cons, IH. cbn [nth].
    destruct (Nat.ltb_spec i n), (Nat.ltb_spec (S i) (S n)); lia.
Qed.

Lemma power_vector_lookup (n i j : nat) (k e : Z) :
  power_vector n i k !! j = Some e →
  (j = i ∧ e = k) ∨ e = 0.
Proof.
  unfold power_vector. intros H.
  apply list_lookup_insert_Some in H as [(-> & -> & _) | (_ & H)].
  - left. auto.
  - apply lookup_replicate in H as [-> _]. right. reflexivity.
Qed.

Lemma power_vector_inj (n i : nat) (k k' : Z) :
  (i < n)%nat → power_vector n i k = power_vector n i k' → k = k'.
Proof.
  unfold power_vector. intros Hi H.
  apply (f_equal (fun l : list Z => l !! i)) in H.
  rewrite !list_lookup_insert_eq in H by (rewrite length_replicate; lia).
  congruence.
Qed.

Section PowerVectors.
Variable self : FiniteGCAlgebra.

Lemma weighted_vector_power (i : nat) (k : Z) :
  0 ≤ k →
  weighted_vector (_degrees self) (power_vector (length (_degrees self)) i k).
Proof.
  intros Hk. unfold power_vector. split.
  - rewrite length_insert, length_replicate. reflexivity.
  - apply List.Forall_forall. intros e He.
    apply list_elem_of_In, list_elem_of_lookup in He as [j Hj].
    apply power_vector_lookup in Hj as [[_ ->] | ->]; lia.
Qed.

Lemma valid_index_power (n i : nat) (k : Z) :
  (∀ d, _degrees self !! i = Some d → is_odd d = true → k ≤ 1) →
  _valid_index self (power_vector n i k) = true.
Proof.
  intros H. apply valid_index_true_iff. intros j e d Hw Hd Hodd.
  apply power_vector_lookup in Hw as [[-> ->] | ->]; [|lia].
  apply (H d); assumption.
Qed.
End PowerVectors.

Lemma grading_nonneg (ds w : list Z) :
  Forall (fun d => 0 ≤ d) ds → Forall (fun e => 0 ≤ e) w →
  0 ≤ grading ds w.
Proof.
  intros Fd. revert w. induction Fd as [|d ds Hd Fd IH]; intros w Fw.
  - rewrite grading_nil_r. lia.
  - destruct Fw as [|e w He Fw]; [rewrite grading_nil_l; lia|].
    rewrite grading_cons. specialize (IH w Fw). nia.
Qed.

Lemma term_le_grading (ds w : list Z) (i : nat) (e d : Z) :
  Forall (fun d => 0 ≤ d) ds → Forall (fun e => 0 ≤ e) w →
  w !! i = Some e → ds !! i = Some d →
  e * d ≤ grading ds w.
Proof.
  intros Fd. revert w i. induction Fd as [|d0 ds Hd Fd IH]; intros w i Fw Hw Hdi.
  - rewrite lookup_nil in Hdi. discriminate.
  - destruct Fw as [|e0 w He Fw]; [rewrite lookup_nil in Hw; discriminate|].
    rewrite grading_cons. destruct i as [|i]; simpl in Hw, Hdi.
    + injection Hw as ->. injection Hdi as ->.
      pose proof (grading_nonneg ds w Fd Fw). lia.
    + specialize (IH w i Fw Hw Hdi). nia.
Qed.

Lemma grading_mono (ds w w' : list Z) :
  Forall (fun d => 0 ≤ d) ds → Forall2 Z.le w w' →
  grading ds w ≤ grading ds w'.
Proof.
  intros Fd Hle. revert ds Fd.
  induction Hle as [|e e' w w' He Hle IH]; intros ds Fd; [reflexivity|].
  destruct Fd as [|d ds Hd Fd]; [rewrite !grading_nil_r; lia|].
  rewrite !grading_cons. specialize (IH ds Fd). nia.
Qed.

(** The index set of an algebra that [FiniteGCAlgebra_call] returned. *)
Lemma in_indices_constructed (names : names_arg) (degrees : option (list Z))
    (md : max_degree_arg) (self : FiniteGCAlgebra) (w : list Z) :
  FiniteGCAlgebra_call names degrees md = Ok self →
  in_indices self w = true
  ↔ weighted_vector (_degrees self) w
    ∧ _valid_index self w = true
    ∧ 0 ≤ grading (_degrees self) w < _max_deg self.
Proof.
  intros Hcall. destruct (call_inv _ _ _ _ Hcall) as (ns & ds & _ & Hinit).
  eapply in_indices_iff, Hinit.
Qed.

(** X5. The index [one_basis()] of the identity has degree [0], and it
    belongs to the index set of a constructed algebra exactly when the
    maximal degree is positive; this is so as soon as one generator has a
    positive degree. *)
Theorem identity_index_in_basis (names : names_arg)
    (degrees : option (list Z)) (md : max_degree_arg)
    (self : FiniteGCAlgebra) :
  FiniteGCAlgebra_call names degrees md = Ok self →
  ∃ one : list Z,
    one_basis self = Ok one
    ∧ degree_on_basis self one = 0
    ∧ (in_indices self one = true ↔ 0 < maximal_degree self)
    ∧ (Exists (fun d => 0 < d) (_degrees self) → in_indices self one = true).
Proof.
  intros Hcall. exists (replicate (length (_degrees self)) 0).
  assert (in_indices self (replicate (length (_degrees self)) 0) = true
          ↔ 0 < maximal_degree self) as Hiff.
  { rewrite (in_indices_constructed _ _ _ _ _ Hcall).
    unfold maximal_degree. rewrite grading_replicate_0. split.
    - intros (_ & _ & H). lia.
    - intros H. split; [apply weighted_vector_replicate|]. split; [|lia].
      apply valid_index_true_iff. intros i e d Hi _ _.
      apply lookup_replicate in Hi as [-> _]. lia. }
  split; [apply one_basis_eq|].
  split; [apply grading_replicate_0|]. split; [exact Hiff|].
  intros Hex. apply Hiff.
  destruct (constructed_invariants _ _ _ _ Hcall) as (_ & _ & Hmax & _).
  apply List.Exists_exists in Hex as (d & Hd & Hpos).
  specialize (Hmax d Hd). lia.
Qed.

Lemma identity_index_in_basis_witness :
  FiniteGCAlgebra_call (NamesStr "x,y,z") (Some [4; 8; 2]) (MaxInt 10)
  = Ok A_4_8_2
  ∧ ∃ one : list Z,
      one_basis A_4_8_2 = Ok one
      ∧ degree_on_basis A_4_8_2 one = 0
      ∧ (in_indices A_4_8_2 one = true ↔ 0 < maximal_degree A_4_8_2)
      ∧ (Exists (fun d => 0 < d) (_degrees A_4_8_2) →
         in_indices A_4_8_2 one = true).
Proof.
  assert (FiniteGCAlgebra_call (NamesStr "x,y,z") (Some [4; 8; 2]) (MaxInt 10)
          = Ok A_4_8_2) as H by (vm_compute; reflexivity).
  split; [exact H|].
  exact (identity_index_in_basis _ _ _ _ H).
Defined.

(** X6. Finite dimension: in an algebra constructed with positive degrees,
    every exponent of every basis index lies in [0, max_degree), and more
    precisely [w_i * degree(i) < max_degree]. *)
Theorem basis_exponents_bounded (names : names_arg)
    (degrees : option (list Z)) (md : max_degree_arg)
    (self : FiniteGCAlgebra) (w : list Z) (i : nat) (e d : Z) :
  FiniteGCAlgebra_call names degrees md = Ok self →
  Forall (fun d => 0 < d) (_degrees self) →
  in_indices self w = true →
  w !! i = Some e → _degrees self !! i = Some d →
  0 ≤ e ∧ e * d < maximal_degree self ∧ e < maximal_degree self.
Proof.
  intros Hcall Hpos Hin Hw Hd.
  apply (in_indices_constructed _ _ _ _ _ Hcall) in Hin
    as ([_ Fw] & _ & Hg).
  assert (Forall (fun d => 0 ≤ d) (_degrees self)) as Fd.
  { eapply List.Forall_impl; [|exact Hpos]. simpl. intros; lia. }
  pose proof (term_le_grading _ _ _ _ _ Fd Fw Hw Hd) as Hle.
  rewrite List.Forall_forall in Fw, Hpos.
  assert (0 ≤ e) by (apply Fw, list_elem_of_In, list_elem_of_lookup; eauto).
  assert (0 < d) by (apply Hpos, list_elem_of_In, list_elem_of_lookup; eauto).
  unfold maximal_degree. split; [assumption|]. split; [lia|nia].
Qed.

Lemma basis_exponents_bounded_witness :
  FiniteGCAlgebra_call (NamesStr "x,y,z") (Some [4; 8; 2]) (MaxInt 10)
  = Ok A_4_8_2
  ∧ Forall (fun d => 0 < d) (_degrees A_4_8_2)
  ∧ in_indices A_4_8_2 [1; 0; 2] = true
  ∧ 0 ≤ 2 ∧ 2 * 2 < maximal_degree A_4_8_2 ∧ 2 < maximal_degree A_4_8_2.
Proof.
  assert (FiniteGCAlgebra_call (NamesStr "x,y,z") (Some [4; 8; 2]) (MaxInt 10)
          = Ok A_4_8_2) as H by (vm_compute; reflexivity).
  assert (Forall (fun d => 0 < d) (_degrees A_4_8_2)) as Hp
    by (repeat constructor; lia).
  assert (in_indices A_4_8_2 [1; 0; 2] = true) as Hi by reflexivity.
  split; [exact H|]. split; [exact Hp|]. split; [exact Hi|].
  exact (basis_exponents_bounded _ _ _ A_4_8_2 [1; 0; 2] 2%nat 2 2
           H Hp Hi eq_refl eq_refl).
Defined.

(** X7. A generator of degree [0] is accepted by the constructor and makes
    the index set infinite: when the maximal degree is positive, every
    power of that generator is a basis index, and distinct powers have
    distinct indices. *)
Theorem zero_degree_generator_unbounded (names : names_arg)
    (degrees : option (list Z)) (md : max_degree_arg)
    (self : FiniteGCAlgebra) (i : nat) :
  FiniteGCAlgebra_call names degrees md = Ok self →
  _degrees self !! i = Some 0 →
  0 < maximal_degree self →
  (∀ k : Z, 0 ≤ k →
     in_indices self (power_vector (length (_degrees self)) i k) = true)
  ∧ (∀ k k' : Z,
       power_vector (length (_degrees self)) i k
       = power_vector (length (_degrees self)) i k' → k = k').
Proof.
  intros Hcall Hd Hmax. pose proof (lookup_lt_Some _ _ _ Hd) as Hi. split.
  - intros k Hk. apply (in_indices_constructed _ _ _ _ _ Hcall).
    split; [apply weighted_vector_power, Hk|]. split.
    + apply valid_index_power. intros d Hd' Hodd.
      rewrite Hd in Hd'. injection Hd' as <-. discriminate.
    + rewrite grading_power_vector.
      destruct (Nat.ltb_spec i (length (_degrees self))); [|lia].
      rewrite (nth_lookup_Some _ _ 0 _ Hd). unfold maximal_degree in Hmax. lia.
  - intros k k'. apply power_vector_inj, Hi.
Qed.

Lemma zero_degree_generator_unbounded_witness :
  FiniteGCAlgebra_call (NamesStr "u,x") (Some [0; 1]) (MaxInt 1)
  = Ok {| _names := ["u"; "x"]; __ngens := 2; _degrees := [0; 1];
          _max_deg := 1; _universe := [0] |}
  ∧ in_indices {| _names := ["u"; "x"]; __ngens := 2; _degrees := [0; 1];
                  _max_deg := 1; _universe := [0] |}
      (power_vector 2 0 1000) = true.
Proof.
  assert (FiniteGCAlgebra_call (NamesStr "u,x") (Some [0; 1]) (MaxInt 1)
  = Ok {| _names := ["u"; "x"]; __ngens := 2; _degrees := [0; 1];
          _max_deg := 1; _universe := [0] |}) as H
    by (vm_compute; reflexivity).
  split; [exact H|].
  exact (proj1 (zero_degree_generator_unbounded _ _ _ _ 0%nat H eq_refl
                  ltac:(simpl; lia)) 1000 ltac:(lia)).
Defined.

(** X8. When every generator has even degree, every vector is a valid
    index: exponents are unrestricted. *)
Theorem all_even_degrees_all_valid (self : FiniteGCAlgebra) (w : list Z) :
  Forall (fun d => is_even d = true) (_degrees self) →
  _valid_index self w = true.
Proof.
  intros Hev. apply valid_index_true_iff. intros i e d _ Hd Hodd.
  rewrite List.Forall_forall in Hev.
  assert (is_even d = true) as He
    by (apply Hev, list_elem_of_In, list_elem_of_lookup; eauto).
  unfold is_odd in Hodd. rewrite He in Hodd. discriminate.
Qed.

Lemma all_even_degrees_all_valid_witness :
  Forall (fun d => is_even d = true) (_degrees A_4_8_2)
  ∧ _valid_index A_4_8_2 [3; 7; 5] = true.
Proof.
  assert (Forall (fun d => is_even d = true) (_degrees A_4_8_2)) as H
    by (repeat constructor).
  split; [exact H|].
  exact (all_even_degrees_all_valid A_4_8_2 [3; 7; 5] H).
Defined.

(** X9. The basis is closed under divisors: in an algebra constructed with
    non-negative degrees, an exponent vector that is entrywise below a basis
    index is a basis index. *)
Theorem basis_closed_under_divisors (names : names_arg)
    (degrees : option (list Z)) (md : max_degree_arg)
    (self : FiniteGCAlgebra) (w w' : list Z) :
  FiniteGCAlgebra_call names degrees md = Ok self →
  Forall (fun d => 0 ≤ d) (_degrees self) →
  in_indices self w' = true →
  Forall (fun e => 0 ≤ e) w →
  Forall2 Z.le w w' →
  in_indices self w = true.
Proof.
  intros Hcall Fd Hin Fw Hle.
  apply (in_indices_constructed _ _ _ _ _ Hcall) in Hin
    as ([Hl Fw'] & V & Hg).
  apply (in_indices_constructed _ _ _ _ _ Hcall).
  split; [split; [|exact Fw]|split].
  - rewrite <- Hl. eapply Forall2_length, Hle.
  - eapply valid_index_mono; eassumption.
  - pose proof (grading_nonneg _ _ Fd Fw).
    pose proof (grading_mono _ _ _ Fd Hle). lia.
Qed.

Lemma basis_closed_under_divisors_witness :
  FiniteGCAlgebra_call (NamesStr "x,y,z") (Some [1; 2; 3]) (MaxInt 10)
  = Ok A_1_2_3_max10
  ∧ in_indices A_1_2_3_max10 [1; 2; 1] = true
  ∧ Forall2 Z.le [0; 1; 1] [1; 2; 1]
  ∧ in_indices A_1_2_3_max10 [0; 1; 1] = true.
Proof.
  assert (FiniteGCAlgebra_call (NamesStr "x,y,z") (Some [1; 2; 3]) (MaxInt 10)
          = Ok A_1_2_3_max10) as H by (vm_compute; reflexivity).
  assert (Forall (fun d => 0 ≤ d) (_degrees A_1_2_3_max10)) as Fd
    by (repeat constructor; lia).
  assert (in_indices A_1_2_3_max10 [1; 2; 1] = true) as Hi by reflexivity.
  assert (Forall (fun e => 0 ≤ e) [0; 1; 1]) as Fw by (repeat constructor; lia).
  assert (Forall2 Z.le [0; 1; 1] [1; 2; 1]) as Hle by (repeat constructor; lia).
  split; [exact H|]. split; [exact Hi|]. split; [exact Hle|].
  exact (basis_closed_under_divisors _ _ _ _ _ _ H Fd Hi Fw Hle).
Defined.

(** ** More on the product of basis indices *)

Lemma lookup_scal (c : Z) (x : elt) (w : list Z) :
  c ≠ 0 → scal c x !! w = Z.mul c <$> x !! w.
Proof.
  intros Hc. unfold scal. destruct (Z.eqb_spec c 0); [contradiction|].
  apply lookup_fmap.
Qed.

Lemma add_scal_opp (c : Z) (x : elt) :
  add (scal c x) (scal (- c) x) = zero.
Proof.
  destruct (Z.eq_dec c 0) as [->|Hc]; [reflexivity|].
  apply map_eq. intros w. unfold add, zero.
  rewrite lookup_union_with, !lookup_scal, lookup_empty by lia.
  destruct (x !! w) as [a|]; [|reflexivity].
  unfold union_with, option_union_with. cbn [fmap option_fmap option_map].
  destruct (Z.eqb_spec (c * a + - c * a) 0); [reflexivity|lia].
Qed.

Lemma disjoint_flags_self (f : list bool) :
  disjoint_flags f f → cnt f = 0.
Proof.
  induction f as [|b f IH]; intros D; [reflexivity|].
  destruct D as [Hb D]. simpl. rewrite IH by exact D.
  destruct b; [discriminate|reflexivity].
Qed.

Section ProductOrders.
Variable self : FiniteGCAlgebra.
Hypothesis WF : well_formed self.
Variables w1 w2 : list Z.
Hypothesis H1 : weighted_vector (_degrees self) w1.
Hypothesis H2 : weighted_vector (_degrees self) w2.

(** Both orders of a product at once: either both are zero, or both are a
    sign times the same monomial, the two signs agreeing exactly when the
    product of the gradings is even. *)
Lemma product_on_basis_orders :
  (product_on_basis self w1 w2 = Ok zero
   ∧ product_on_basis self w2 w1 = Ok zero)
  ∨ ∃ i j : Z,
      0 ≤ i ∧ 0 ≤ j
      ∧ Z.even (i + j)
        = Z.even (grading (_degrees self) w1 * grading (_degrees self) w2)
      ∧ product_on_basis self w1 w2
        = Ok (scal ((-1) ^ i) (monomial (zip_with Z.add w1 w2)))
      ∧ product_on_basis self w2 w1
        = Ok (scal ((-1) ^ j) (monomial (zip_with Z.add w1 w2))).
Proof.
  set (g1 := grading (_degrees self) w1).
  set (g2 := grading (_degrees self) w2).
  destruct (Z.lt_ge_cases (_max_deg self) (g1 + g2)) as [Ht|Ht].
  { left. rewrite !product_on_basis_truncated by (fold g1 g2; lia). auto. }
  destruct (_valid_index self (zip_with Z.add w1 w2)) eqn:V.
  2:{ left. rewrite (product_on_basis_invalid self w1 w2) by assumption.
      rewrite (product_on_basis_invalid self w2 w1)
        by (try assumption; rewrite zip_with_add_comm; exact V).
      auto. }
  right. pose proof H1 as [L1 F1]. pose proof H2 as [L2 F2].
  assert (_valid_index self w1 = true) as V1.
  { eapply valid_index_mono; [|exact V]. apply Forall2_le_add_l; [lia|exact F2]. }
  assert (_valid_index self w2 = true) as V2.
  { eapply valid_index_mono; [|exact V]. apply Forall2_le_add_r; [lia|exact F1]. }
  pose proof (inversions_swap _ _ (valid_index_disjoint self w1 w2 F1 F2 V)) as E.
  pose proof (grading_parity self w1 F1 V1) as P1.
  pose proof (grading_parity self w2 F2 V2) as P2.
  fold g1 in P1. fold g2 in P2.
  exists (inversions (flags (_degrees self) w1) (flags (_degrees self) w2)),
         (inversions (flags (_degrees self) w2) (flags (_degrees self) w1)).
  split; [apply inversions_nonneg|]. split; [apply inversions_nonneg|].
  split; [rewrite E, !Z.even_mul, P1, P2; reflexivity|].
  split; [apply product_on_basis_monomial; assumption|].
  rewrite (zip_with_add_comm w1 w2).
  apply product_on_basis_monomial; try assumption; [fold g1 g2; lia|].
  rewrite zip_with_add_comm. exact V.
Qed.
End ProductOrders.



(** X11. Elements of odd degree anticommute: for exponent vectors [w1],
    [w2] of odd gradings in an algebra with one degree per generator, the
    sum of [product_on_basis(w1, w2)] and [product_on_basis(w2, w1)] is
    zero. *)
Theorem odd_elements_anticommute (self : FiniteGCAlgebra) (w1 w2 : list Z) :
  well_formed self →
  weighted_vector (_degrees self) w1 →
  weighted_vector (_degrees self) w2 →
  is_odd (grading (_degrees self) w1) = true →
  is_odd (grading (_degrees self) w2) = true →
  ∃ x y : elt,
    product_on_basis self w1 w2 = Ok x
    ∧ product_on_basis self w2 w1 = Ok y
    ∧ add x y = zero.
Proof.
  intros WF H1 H2 O1 O2.
  destruct (product_on_basis_orders self WF w1 w2 H1 H2)
    as [[-> ->] | (i & j & Hi & Hj & E & -> & ->)].
  - exists zero, zero. auto using add_zero_l.
  - eexists _, _. split; [reflexivity|]. split; [reflexivity|].
    rewrite is_odd_Zodd, <- Z.negb_even in O1, O2.
    rewrite Z.even_mul, Z.even_add in E.
    replace ((-1) ^ j) with (- (-1) ^ i); [apply add_scal_opp|].
    rewrite !pow_m1_even by assumption.
    destruct (Z.even i), (Z.even j),
      (Z.even (grading (_degrees self) w1)),
      (Z.even (grading (_degrees self) w2)); simpl in *;
      try discriminate; reflexivity.
Qed.

Lemma odd_elements_anticommute_witness :
  well_formed A_1_2_3
  ∧ weighted_vector (_degrees A_1_2_3) [1; 0; 0]
  ∧ weighted_vector (_degrees A_1_2_3) [0; 0; 1]
  ∧ is_odd (grading (_degrees A_1_2_3) [1; 0; 0]) = true
  ∧ is_odd (grading (_degrees A_1_2_3) [0; 0; 1]) = true
  ∧ ∃ x y : elt,
      product_on_basis A_1_2_3 [1; 0; 0] [0; 0; 1] = Ok x
      ∧ product_on_basis A_1_2_3 [0; 0; 1] [1; 0; 0] = Ok y
      ∧ add x y = zero.
Proof.
  assert (well_formed A_1_2_3) as WF by reflexivity.
  assert (weighted_vector (_degrees A_1_2_3) [1; 0; 0]) as H1 by concrete.
  assert (weighted_vector (_degrees A_1_2_3) [0; 0; 1]) as H2 by concrete.
  assert (is_odd (grading (_degrees A_1_2_3) [1; 0; 0]) = true) as O1
    by reflexivity.
  assert (is_odd (grading (_degrees A_1_2_3) [0; 0; 1]) = true) as O2
    by reflexivity.
  split; [exact WF|]. split; [exact H1|]. split; [exact H2|].
  split; [exact O1|]. split; [exact O2|].
  exact (odd_elements_anticommute A_1_2_3 [1; 0; 0] [0; 0; 1] WF H1 H2 O1 O2).
Defined.

(** X12. An element of even degree commutes with everything: when
    [grading(w1)] is even, [product_on_basis(w1, w2)] and
    [product_on_basis(w2, w1)] return the same element. *)
Theorem even_elements_commute (self : FiniteGCAlgebra) (w1 w2 : list Z) :
  well_formed self →
  weighted_vector (_degrees self) w1 →
  weighted_vector (_degrees self) w2 →
  is_even (grading (_degrees self) w1) = true →
  product_on_basis self w1 w2 = product_on_basis self w2 w1
  ∧ returns (product_on_basis self w1 w2).
Proof.
  intros WF H1 H2 E1.
  destruct (product_on_basis_orders self WF w1 w2 H1 H2)
    as [[-> ->] | (i & j & Hi & Hj & E & -> & ->)].
  - split; [reflexivity|eexists; reflexivity].
  - split; [|eexists; reflexivity].
    rewrite is_even_Zeven in E1.
    rewrite Z.even_mul, E1, Z.even_add in E. simpl in E.
    rewrite !pow_m1_even by assumption.
    destruct (Z.even i), (Z.even j); simpl in E; try discriminate; reflexivity.
Qed.

Lemma even_elements_commute_witness :
  well_formed A_1_2_3
  ∧ weighted_vector (_degrees A_1_2_3) [0; 1; 0]
  ∧ weighted_vector (_degrees A_1_2_3) [0; 0; 1]
  ∧ is_even (grading (_degrees A_1_2_3) [0; 1; 0]) = true
  ∧ product_on_basis A_1_2_3 [0; 1; 0] [0; 0; 1]
    = product_on_basis A_1_2_3 [0; 0; 1] [0; 1; 0]
  ∧ returns (product_on_basis A_1_2_3 [0; 1; 0] [0; 0; 1]).
Proof.
  assert (well_formed A_1_2_3) as WF by reflexivity.
  assert (weighted_vector (_degrees A_1_2_3) [0; 1; 0]) as H1 by concrete.
  assert (weighted_vector (_degrees A_1_2_3) [0; 0; 1]) as H2 by concrete.
  assert (is_even (grading (_degrees A_1_2_3) [0; 1; 0]) = true) as E1
    by reflexivity.
  split; [exact WF|]. split; [exact H1|]. split; [exact H2|].
  split; [exact E1|].
  exact (even_elements_commute A_1_2_3 [0; 1; 0] [0; 0; 1] WF H1 H2 E1).
Defined.

(** X13. An element of odd degree squares to zero: for an exponent vector
    [w] of odd grading, [product_on_basis(w, w)] is zero. *)
Theorem odd_elements_square_to_zero (self : FiniteGCAlgebra) (w : list Z) :
  weighted_vector (_degrees self) w →
  is_odd (grading (_degrees self) w) = true →
  product_on_basis self w w = Ok zero.
Proof.
  intros Hw Hodd. pose proof Hw as [L F].
  apply product_on_basis_invalid; try assumption.
  destruct (_valid_index self (zip_with Z.add w w)) eqn:V; [|reflexivity].
  exfalso.
  assert (_valid_index self w = true) as Vw.
  { eapply valid_index_mono; [|exact V]. apply Forall2_le_add_l; auto. }
  pose proof (grading_parity self w F Vw) as P.
  rewrite (disjoint_flags_self _ (valid_index_disjoint self w w F F V)) in P.
  rewrite is_odd_Zodd, <- Z.negb_even, P in Hodd. discriminate.
Qed.

Lemma odd_elements_square_to_zero_witness :
  weighted_vector (_degrees A_1_2_3_max10) [1; 1; 0]
  ∧ is_odd (grading (_degrees A_1_2_3_max10) [1; 1; 0]) = true
  ∧ product_on_basis A_1_2_3_max10 [1; 1; 0] [1; 1; 0] = Ok zero.
Proof.
  assert (weighted_vector (_degrees A_1_2_3_max10) [1; 1; 0]) as H1 by concrete.
  assert (is_odd (grading (_degrees A_1_2_3_max10) [1; 1; 0]) = true) as O
    by reflexivity.
  split; [exact H1|]. split; [exact O|].
  exact (odd_elements_square_to_zero A_1_2_3_max10 [1; 1; 0] H1 O).
Defined.

(** ** The generators *)

Lemma unit_vector_power (n k : nat) : unit_vector n k = power_vector n k 1.
Proof. reflexivity. Qed.

(** X14. [gens()] never raises and returns one generator per degree, in
    order; the same list is the family of [algebra_generators()].  The
    [k]-th generator is the monomial whose index has exponent one at [k] and
    zero elsewhere; that index is valid and its degree is the [k]-th
    degree. *)
Theorem gens_listing (self : FiniteGCAlgebra) :
  ∃ gs : list elt,
    gens self = Ok gs
    ∧ algebra_generators self = Ok gs
    ∧ length gs = length (_degrees self)
    ∧ ∀ (k : nat) (d : Z),
        _degrees self !! k = Some d →
        gs !! k = Some (monomial (unit_vector (length (_degrees self)) k))
        ∧ degree_on_basis self (unit_vector (length (_degrees self)) k) = d
        ∧ _valid_index self (unit_vector (length (_degrees self)) k) = true.
Proof.
  eexists. split; [apply gens_eq|]. split; [apply gens_eq|].
  split; [rewrite length_map, length_seq; reflexivity|].
  intros k d Hd. pose proof (lookup_lt_Some _ _ _ Hd) as Hk. split; [|split].
  - change (map ?f ?l) with (f <$> l).
    rewrite list_lookup_fmap, lookup_seq_lt by exact Hk. reflexivity.
  - unfold degree_on_basis. rewrite unit_vector_power, grading_power_vector.
    destruct (Nat.ltb_spec k (length (_degrees self))); [|lia].
    rewrite (nth_lookup_Some _ _ 0 _ Hd). lia.
  - rewrite unit_vector_power. apply valid_index_power. intros; lia.
Qed.

Lemma gens_listing_witness :
  _degrees A_4_8_2 !! 2%nat = Some 2
  ∧ ∃ gs : list elt,
      gens A_4_8_2 = Ok gs
      ∧ gs !! 2%nat = Some (monomial [0; 0; 1])
      ∧ degree_on_basis A_4_8_2 [0; 0; 1] = 2.
Proof.
  split; [reflexivity|].
  destruct (gens_listing A_4_8_2) as (gs & Hg & _ & _ & H).
  exists gs. split; [exact Hg|].
  destruct (H 2%nat 2 eq_refl) as (H1 & H2 & _).
  split; [exact H1|exact H2].
Defined.

(** X15. In a constructed algebra the index of the [k]-th generator is a
    basis index exactly when its degree lies in [0, max_degree): a
    generator whose degree equals the maximal degree is accepted by the
    constructor and is not a basis index. *)
Theorem generator_index_in_basis_iff (names : names_arg)
    (degrees : option (list Z)) (md : max_degree_arg)
    (self : FiniteGCAlgebra) (k : nat) (d : Z) :
  FiniteGCAlgebra_call names degrees md = Ok self →
  _degrees self !! k = Some d →
  (in_indices self (unit_vector (length (_degrees self)) k) = true
   ↔ 0 ≤ d < maximal_degree self).
Proof.
  intros Hcall Hd. pose proof (lookup_lt_Some _ _ _ Hd) as Hk.
  rewrite (in_indices_constructed _ _ _ _ _ Hcall).
  rewrite unit_vector_power, grading_power_vector.
  destruct (Nat.ltb_spec k (length (_degrees self))); [|lia].
  rewrite (nth_lookup_Some _ _ 0 _ Hd), Z.mul_1_l. unfold maximal_degree.
  split; [tauto|]. intros Hg.
  split; [apply weighted_vector_power; lia|]. split; [|exact Hg].
  apply valid_index_power. intros; lia.
Qed.

Lemma generator_index_in_basis_iff_witness :
  FiniteGCAlgebra_call (NamesStr "x,y") (Some [1; 4]) (MaxInt 4)
  = Ok {| _names := ["x"; "y"]; __ngens := 2; _degrees := [1; 4];
          _max_deg := 4; _universe := [0; 1; 2; 3] |}
  ∧ in_indices {| _names := ["x"; "y"]; __ngens := 2; _degrees := [1; 4];
                  _max_deg := 4; _universe := [0; 1; 2; 3] |}
      (unit_vector 2 1) = false
  ∧ (in_indices {| _names := ["x"; "y"]; __ngens := 2; _degrees := [1; 4];
                   _max_deg := 4; _universe := [0; 1; 2; 3] |}
       (unit_vector 2 1) = true
     ↔ 0 ≤ 4 < 4).
Proof.
  assert (FiniteGCAlgebra_call (NamesStr "x,y") (Some [1; 4]) (MaxInt 4)
  = Ok {| _names := ["x"; "y"]; __ngens := 2; _degrees := [1; 4];
          _max_deg := 4; _universe := [0; 1; 2; 3] |}) as H
    by (vm_compute; reflexivity).
  split; [exact H|]. split; [reflexivity|].
  exact (generator_index_in_basis_iff _ _ _ _ 1%nat 4 H eq_refl).
Defined.

Lemma flags_replicate_0 (ds : list Z) (n : nat) :
  flags ds (replicate n 0) = replicate (min n (length ds)) false.
Proof.
  revert ds. induction n as [|n IH]; intros ds; [reflexivity|].
  destruct ds as [|d ds]; [reflexivity|].
  simpl replicate. rewrite flags_cons, IH, orb_true_r. reflexivity.
Qed.

Lemma flags_power_vector (ds : list Z) (p : nat) :
  flags ds (power_vector (length ds) p 1)
  = <[p := is_odd (nth p ds 0)]> (replicate (length ds) false).
Proof.
  unfold power_vector. revert p. induction ds as [|d ds IH]; intros p.
  - destruct p; reflexivity.
  - destruct p as [|p]; simpl length; simpl replicate.
    + change (<[0%nat := 1]> (0 :: replicate (length ds) 0))
        with (1 :: replicate (length ds) 0).
      rewrite flags_cons, flags_replicate_0, Nat.min_id, orb_false_r.
      reflexivity.
    + change (<[S p := 1]> (0 :: replicate (length ds) 0))
        with (0 :: <[p := 1]> (replicate (length ds) 0)).
      rewrite flags_cons, IH, orb_true_r. reflexivity.
Qed.

Lemma cnt_replicate_false (n : nat) : cnt (replicate n false) = 0.
Proof. induction n as [|n IH]; simpl; [reflexivity|rewrite IH; reflexivity]. Qed.

Lemma inversions_replicate_false_l (n : nat) (f : list bool) :
  inversions (replicate n false) f = 0.
Proof.
  revert f. induction n as [|n IH]; intros [|b f]; simpl; try reflexivity.
  rewrite IH, cnt_replicate_false. destruct b; reflexivity.
Qed.

Lemma inversions_replicate_false_r (n : nat) (f : list bool) :
  inversions f (replicate n false) = 0.
Proof.
  revert f. induction n as [|n IH]; intros [|b f]; simpl; try reflexivity.
  apply IH.
Qed.

Lemma cnt_single_flag (n p : nat) (a : bool) :
  cnt (<[p := a]> (replicate n false)) = if a && (p <? n)%nat then 1 else 0.
Proof.
  revert p. induction n as [|n IH]; intros p.
  - simpl. rewrite andb_false_r. reflexivity.
  - destruct p as [|p]; simpl replicate.
    + change (<[0%nat := a]> (false :: replicate n false))
        with (a :: replicate n false).
      cbn [cnt]. rewrite cnt_replicate_false. destruct a; reflexivity.
    + change (<[S p := a]> (false :: replicate n false))
        with (false :: <[p := a]> (replicate n false)).
      cbn [cnt]. rewrite IH. change (S p <? S n)%nat with (p <? n)%nat. lia.
Qed.

Lemma inversions_single_flags (n p q : nat) (a b : bool) :
  inversions (<[p := a]> (replicate n false)) (<[q := b]> (replicate n false))
  = if a && b && (q <? p)%nat && (p <? n)%nat then 1 else 0.
Proof.
  revert p q. induction n as [|n IH]; intros p q.
  - simpl. rewrite andb_false_r. reflexivity.
  - destruct p as [|p], q as [|q]; simpl replicate.
    + change (<[0%nat := a]> (false :: replicate n false))
        with (a :: replicate n false).
      change (<[0%nat := b]> (false :: replicate n false))
        with (b :: replicate n false).
      cbn [inversions]. rewrite cnt_replicate_false, inversions_replicate_false_l.
      destruct a, b; reflexivity.
    + change (<[0%nat := a]> (false :: replicate n false))
        with (a :: replicate n false).
      change (<[S q := b]> (false :: replicate n false))
        with (false :: <[q := b]> (replicate n false)).
      cbn [inversions]. rewrite inversions_replicate_false_l.
      destruct a, b; reflexivity.
    + change (<[S p := a]> (false :: replicate n false))
        with (false :: <[p := a]> (replicate n false)).
      change (<[0%nat := b]> (false :: replicate n false))
        with (b :: replicate n false).
      cbn [inversions]. rewrite inversions_replicate_false_r, cnt_single_flag.
      change (S p <? S n)%nat with (p <? n)%nat.
      destruct a, b, (p <? n)%nat; reflexivity.
    + change (<[S p := a]> (false :: replicate n false))
        with (false :: <[p := a]> (replicate n false)).
      change (<[S q := b]> (false :: replicate n false))
        with (false :: <[q := b]> (replicate n false)).
      cbn [inversions]. rewrite IH.
      change (S p <? S n)%nat with (p <? n)%nat.
      change (S q <? S p)%nat with (q <? p)%nat. lia.
Qed.

(** X16. The product of two distinct generators: when the sum of their
    degrees does not exceed the maximal degree, the product of the [p]-th
    and the [q]-th generator is the monomial at the sum of their indices,
    negated exactly when both degrees are odd and [q < p]. *)
Theorem generators_product (self : FiniteGCAlgebra) (p q : nat) (dp dq : Z) :
  well_formed self →
  _degrees self !! p = Some dp →
  _degrees self !! q = Some dq →
  p ≠ q →
  dp + dq ≤ _max_deg self →
  product_on_basis self
    (unit_vector (length (_degrees self)) p)
    (unit_vector (length (_degrees self)) q)
  = Ok (scal (if is_odd dp && is_odd dq && (q <? p)%nat then -1 else 1)
          (monomial (zip_with Z.add
                       (unit_vector (length (_degrees self)) p)
                       (unit_vector (length (_degrees self)) q)))).
Proof.
  intros WF Hp Hq Hne Hmax.
  pose proof (lookup_lt_Some _ _ _ Hp) as Lp.
  pose proof (lookup_lt_Some _ _ _ Hq) as Lq.
  rewrite !unit_vector_power.
  rewrite product_on_basis_monomial; try assumption;
    try (apply weighted_vector_power; lia).
  - rewrite !flags_power_vector, inversions_single_flags.
    rewrite (nth_lookup_Some _ _ 0 _ Hp), (nth_lookup_Some _ _ 0 _ Hq).
    destruct (Nat.ltb_spec p (length (_degrees self))); [|lia].
    rewrite andb_true_r.
    destruct (is_odd dp && is_odd dq && (q <? p)%nat); reflexivity.
  - rewrite !grading_power_vector.
    destruct (Nat.ltb_spec p (length (_degrees self))); [|lia].
    destruct (Nat.ltb_spec q (length (_degrees self))); [|lia].
    rewrite (nth_lookup_Some _ _ 0 _ Hp), (nth_lookup_Some _ _ 0 _ Hq). lia.
  - apply valid_index_true_iff. intros i e d Hi _ _.
    apply lookup_zip_with_Some in Hi as (e1 & e2 & -> & H1 & H2).
    apply power_vector_lookup in H1 as [[-> ->] | ->];
      apply power_vector_lookup in H2 as [[-> ->] | ->]; lia.
Qed.

Lemma generators_product_witness :
  well_formed A_1_2_3
  ∧ _degrees A_1_2_3 !! 2%nat = Some 3
  ∧ _degrees A_1_2_3 !! 0%nat = Some 1
  ∧ 2%nat ≠ 0%nat
  ∧ 3 + 1 ≤ _max_deg A_1_2_3
  ∧ product_on_basis A_1_2_3 [0; 0; 1] [1; 0; 0]
    = Ok (scal (-1) (monomial [1; 0; 1])).
Proof.
  assert (well_formed A_1_2_3) as WF by reflexivity.
  assert (3 + 1 ≤ _max_deg A_1_2_3) as Hm by (simpl; lia).
  split; [exact WF|]. split; [reflexivity|]. split; [reflexivity|].
  split; [discriminate|]. split; [exact Hm|].
  exact (generators_product A_1_2_3 2 0 3 1 WF eq_refl eq_refl
           ltac:(discriminate) Hm).
Defined.

(** ** The display of terms *)

Lemma py_getitem_nat {A : Type} (l : list A) (i : nat) :
  py_getitem l (Z.of_nat i)
  = match l !! i with
    | Some x => Ok x
    | None => Raise IndexError
    end.
Proof.
  unfold py_getitem. cbv zeta.
  assert ((Z.of_nat i <? 0) = false) as E by (apply Z.ltb_ge; lia).
  rewrite !E, Nat2Z.id. cbn [orb].
  destruct (Z.leb_spec (Z.of_nat (length l)) (Z.of_nat i)).
  - rewrite lookup_ge_None_2 by lia. reflexivity.
  - reflexivity.
Qed.

Lemma repr_term_loop_eq (self : FiniteGCAlgebra) (w : list Z)
    (positions : list nat) (terms : list string) :
  _repr_term_loop self w positions terms
  = terms_loop repr_power (_names self) w positions terms.
Proof.
  revert terms. induction positions as [|i rest IH]; intros terms;
    [reflexivity|].
  cbn [_repr_term_loop terms_loop].
  destruct (py_getitem w (Z.of_nat i)) as [e|err]; [|reflexivity].
  rewrite !bind_Ok. destruct (e =? 0); [apply IH|].
  destruct (e =? 1);
    (destruct (py_getitem (_names self) (Z.of_nat i)) as [name|err];
     [rewrite !bind_Ok; apply IH|reflexivity]).
Qed.

Lemma latex_term_loop_eq (self : FiniteGCAlgebra) (w : list Z)
    (positions : list nat) (terms : list string) :
  _latex_term_loop self w positions terms
  = terms_loop latex_power (_names self) w positions terms.
Proof.
  revert terms. induction positions as [|i rest IH]; intros terms;
    [reflexivity|].
  cbn [_latex_term_loop terms_loop].
  destruct (py_getitem w (Z.of_nat i)) as [e|err]; [|reflexivity].
  rewrite !bind_Ok. destruct (e =? 0); [apply IH|].
  destruct (e =? 1);
    (destruct (py_getitem (_names self) (Z.of_nat i)) as [name|err];
     [rewrite !bind_Ok; apply IH|reflexivity]).
Qed.

Section TermsLoop.
Variable fmt : string → Z → string.
Variable names : list string.
Variable w : list Z.

Lemma terms_loop_app (l1 l2 : list nat) (terms : list string) :
  terms_loop fmt names w (l1 ++ l2) terms
  = terms_loop fmt names w l1 terms ≫= terms_loop fmt names w l2.
Proof.
  revert terms. induction l1 as [|i l1 IH]; intros terms; [reflexivity|].
  cbn [app terms_loop].
  destruct (py_getitem w (Z.of_nat i)) as [e|err]; [|reflexivity].
  rewrite !bind_Ok. destruct (e =? 0); [apply IH|].
  destruct (py_getitem names (Z.of_nat i)) as [name|err]; [|reflexivity].
  rewrite !bind_Ok. apply IH.
Qed.

Lemma terms_loop_zeros (l : list nat) (terms : list string) :
  (∀ i, In i l → w !! i = Some 0) →
  terms_loop fmt names w l terms = Ok terms.
Proof.
  revert terms. induction l as [|i l IH]; intros terms H; [reflexivity|].
  cbn [terms_loop]. rewrite (py_getitem_nat w), (H i) by (left; reflexivity).
  rewrite bind_Ok. simpl. apply IH. intros j Hj. apply H. right. exact Hj.
Qed.

(** The loop raises nothing but [IndexError], and raises it exactly when it
    meets a non-zero entry at a position without a name. *)
Lemma terms_loop_outcome (l : list nat) (terms : list string) :
  (∀ i, In i l → (i < length w)%nat) →
  ((∀ i e, In i l → w !! i = Some e → e ≠ 0 → (i < length names)%nat) →
   returns (terms_loop fmt names w l terms))
  ∧ (¬ (∀ i e, In i l → w !! i = Some e → e ≠ 0 → (i < length names)%nat) →
     terms_loop fmt names w l terms = Raise IndexError).
Proof.
  revert terms. induction l as [|i l IH]; intros terms Hl.
  - split; [intros _; eexists; reflexivity|].
    intros H. contradiction H. intros i e [].
  - assert (∀ j, In j l → (j < length w)%nat) as Hl'
      by (intros j Hj; apply Hl; right; exact Hj).
    destruct (lookup_lt_is_Some_2 w i (Hl i (or_introl eq_refl))) as [e He].
    cbn [terms_loop]. rewrite (py_getitem_nat w), He, bind_Ok.
    destruct (Z.eqb_spec e 0) as [->|Hne].
    + destruct (IH terms Hl') as [IH1 IH2]. split.
      * intros H. apply IH1. intros j e' Hj. apply H. right. exact Hj.
      * intros H. apply IH2. intros H'. apply H.
        intros j e' [<-|Hj] Hw Hnz; [congruence|eapply H'; eassumption].
    + rewrite (py_getitem_nat names). destruct (names !! i) as [name|] eqn:Hn.
      * rewrite bind_Ok.
        destruct (IH (terms ++ [if e =? 1 then name else fmt name e]) Hl')
          as [IH1 IH2].
        split.
        -- intros H. apply IH1. intros j e' Hj. apply H. right. exact Hj.
        -- intros H. apply IH2. intros H'. apply H.
           intros j e' [<-|Hj] Hw Hnz; [|eapply H'; eassumption].
           apply lookup_lt_Some in Hn. exact Hn.
      * split; [|reflexivity].
        intros H. apply lookup_ge_None in Hn.
        specialize (H i e (or_introl eq_refl) He Hne). lia.
Qed.
End TermsLoop.

Lemma support_named_seq (names : list string) (w : list Z) :
  support_named names w
  ↔ ∀ i e, In i (seq 0 (length w)) → w !! i = Some e → e ≠ 0 →
           (i < length names)%nat.
Proof.
  unfold support_named. split.
  - intros H i e _. apply H.
  - intros H i e Hw Hne. apply (H i e); [|exact Hw|exact Hne].
    apply in_seq. apply lookup_lt_Some in Hw. lia.
Qed.

Lemma seq_lt_length (w : list Z) :
  ∀ i, In i (seq 0 (length w)) → (i < length w)%nat.
Proof. intros i Hi. apply in_seq in Hi. lia. Qed.

(** X17. [_repr_term(w)] returns a string when the entries of [w] sum to
    zero or every non-zero entry sits at a position that has a name, and
    raises [IndexError] otherwise; in particular it never raises on a
    vector no longer than the tuple of names. *)
Theorem repr_term_outcome (self : FiniteGCAlgebra) (sym : TermSymbols)
    (w : list Z) :
  (py_sum w = 0 ∨ support_named (_names self) w →
   returns (_repr_term self sym w))
  ∧ (¬ (py_sum w = 0 ∨ support_named (_names self) w) →
     _repr_term self sym w = Raise IndexError)
  ∧ ((length w ≤ length (_names self))%nat → returns (_repr_term self sym w)).
Proof.
  assert (py_sum w = 0 ∨ support_named (_names self) w →
          returns (_repr_term self sym w)) as Hret.
  { unfold _repr_term. intros H.
    destruct (Z.eqb_spec (py_sum w) 0); [eexists; reflexivity|].
    destruct H as [H|H]; [contradiction|].
    rewrite repr_term_loop_eq.
    destruct (proj1 (terms_loop_outcome repr_power (_names self) w
                       (seq 0 (length w)) [] (seq_lt_length w))
                (proj1 (support_named_seq _ _) H)) as [ts ->].
    eexists. reflexivity. }
  split; [exact Hret|]. split.
  - unfold _repr_term. intros H.
    destruct (Z.eqb_spec (py_sum w) 0); [tauto|].
    rewrite repr_term_loop_eq.
    rewrite (proj2 (terms_loop_outcome repr_power (_names self) w
                      (seq 0 (length w)) [] (seq_lt_length w))).
    + reflexivity.
    + intros H'. apply H. right. apply support_named_seq, H'.
  - intros Hlen. apply Hret. right. intros i e Hw _.
    apply lookup_lt_Some in Hw. lia.
Qed.

Lemma repr_term_outcome_witness :
  ¬ (py_sum [0; 0; 0; 3] = 0 ∨ support_named (_names A_1_2_3) [0; 0; 0; 3])
  ∧ _repr_term A_1_2_3 (symbols_of_kwargs None None) [0; 0; 0; 3]
    = Raise IndexError
  ∧ (length [1; 2; 1] ≤ length (_names A_1_2_3))%nat
  ∧ returns (_repr_term A_1_2_3 (symbols_of_kwargs None None) [1; 2; 1]).
Proof.
  assert (¬ (py_sum [0; 0; 0; 3] = 0
             ∨ support_named (_names A_1_2_3) [0; 0; 0; 3])) as H.
  { intros [H|H]; [discriminate|].
    specialize (H 3%nat 3 eq_refl ltac:(lia)). simpl in H. lia. }
  assert (length [1; 2; 1] ≤ length (_names A_1_2_3))%nat as Hl
    by (simpl; lia).
  split; [exact H|]. split.
  - exact (proj1 (proj2 (repr_term_outcome A_1_2_3 _ [0; 0; 0; 3])) H).
  - split; [exact Hl|].
    exact (proj2 (proj2 (repr_term_outcome A_1_2_3 _ [1; 2; 1])) Hl).
Defined.

(** X18. [_latex_term(w)] returns a string when the entries of [w] sum to
    zero or every non-zero entry sits at a position that has a name, and
    raises [IndexError] otherwise; in particular it never raises on a
    vector no longer than the tuple of names. *)
Theorem latex_term_outcome (self : FiniteGCAlgebra) (sym : TermSymbols)
    (w : list Z) :
  (py_sum w = 0 ∨ support_named (_names self) w →
   returns (_latex_term self sym w))
  ∧ (¬ (py_sum w = 0 ∨ support_named (_names self) w) →
     _latex_term self sym w = Raise IndexError)
  ∧ ((length w ≤ length (_names self))%nat → returns (_latex_term self sym w)).
Proof.
  assert (py_sum w = 0 ∨ support_named (_names self) w →
          returns (_latex_term self sym w)) as Hret.
  { unfold _latex_term. intros H.
    destruct (Z.eqb_spec (py_sum w) 0); [eexists; reflexivity|].
    destruct H as [H|H]; [contradiction|].
    rewrite latex_term_loop_eq.
    destruct (proj1 (terms_loop_outcome latex_power (_names self) w
                       (seq 0 (length w)) [] (seq_lt_length w))
                (proj1 (support_named_seq _ _) H)) as [ts ->].
    eexists. reflexivity. }
  split; [exact Hret|]. split.
  - unfold _latex_term. intros H.
    destruct (Z.eqb_spec (py_sum w) 0); [tauto|].
    rewrite latex_term_loop_eq.
    rewrite (proj2 (terms_loop_outcome latex_power (_names self) w
                      (seq 0 (length w)) [] (seq_lt_length w))).
    + reflexivity.
    + intros H'. apply H. right. apply support_named_seq, H'.
  - intros Hlen. apply Hret. right. intros i e Hw _.
    apply lookup_lt_Some in Hw. lia.
Qed.

Lemma latex_term_outcome_witness :
  ¬ (py_sum [0; 0; 0; 3] = 0 ∨ support_named (_names A_1_2_3) [0; 0; 0; 3])
  ∧ _latex_term A_1_2_3 (symbols_of_kwargs None None) [0; 0; 0; 3]
    = Raise IndexError
  ∧ (length [1; 2; 1] ≤ length (_names A_1_2_3))%nat
  ∧ returns (_latex_term A_1_2_3 (symbols_of_kwargs None None) [1; 2; 1]).
Proof.
  assert (¬ (py_sum [0; 0; 0; 3] = 0
             ∨ support_named (_names A_1_2_3) [0; 0; 0; 3])) as H.
  { intros [H|H]; [discriminate|].
    specialize (H 3%nat 3 eq_refl ltac:(lia)). simpl in H. lia. }
  assert (length [1; 2; 1] ≤ length (_names A_1_2_3))%nat as Hl
    by (simpl; lia).
  split; [exact H|]. split.
  - exact (proj1 (proj2 (latex_term_outcome A_1_2_3 _ [0; 0; 0; 3])) H).
  - split; [exact Hl|].
    exact (proj2 (proj2 (latex_term_outcome A_1_2_3 _ [1; 2; 1])) Hl).
Defined.

Lemma py_sum_acc (l : list Z) (a : Z) :
  fold_left Z.add l a = a + fold_left Z.add l 0.
Proof.
  revert a. induction l as [|x l IH]; intros a; cbn [fold_left]; [lia|].
  rewrite (IH (a + x)), (IH (0 + x)). lia.
Qed.

Lemma py_sum_cons (x : Z) (l : list Z) : py_sum (x :: l) = x + py_sum l.
Proof. unfold py_sum. cbn [fold_left]. rewrite py_sum_acc. lia. Qed.

Lemma py_sum_replicate_0 (n : nat) : py_sum (replicate n 0) = 0.
Proof.
  induction n as [|n IH]; [reflexivity|].
  simpl replicate. rewrite py_sum_cons, IH. reflexivity.
Qed.

Lemma py_sum_power_vector (n i : nat) (e : Z) :
  (i < n)%nat → py_sum (power_vector n i e) = e.
Proof.
  unfold power_vector. revert i. induction n as [|n IH]; intros i Hi; [lia|].
  destruct i as [|i]; simpl replicate.
  - change (<[0%nat := e]> (0 :: replicate n 0)) with (e :: replicate n 0).
    rewrite py_sum_cons, py_sum_replicate_0. lia.
  - change (<[S i := e]> (0 :: replicate n 0))
      with (0 :: <[i := e]> (replicate n 0)).
    rewrite py_sum_cons, IH by lia. lia.
Qed.

Lemma terms_loop_power (fmt : string → Z → string) (names : list string)
    (n k : nat) (e : Z) (name : string) :
  names !! k = Some name → (k < n)%nat → e ≠ 0 →
  terms_loop fmt names (power_vector n k e) (seq 0 n) []
  = Ok [if e =? 1 then name else fmt name e].
Proof.
  intros Hn Hk He.
  assert (∀ i, i ≠ k → (i < n)%nat → power_vector n k e !! i = Some 0) as Hz.
  { intros i Hi Hlt. unfold power_vector.
    rewrite list_lookup_insert_ne by congruence.
    apply lookup_replicate. auto. }
  replace n with (k + S (n - S k))%nat at 2 by lia.
  rewrite seq_app, terms_loop_app, terms_loop_zeros.
  2:{ intros i Hi. apply in_seq in Hi. apply Hz; lia. }
  assert (power_vector n k e !! k = Some e) as Hke.
  { unfold power_vector. apply list_lookup_insert_eq.
    rewrite length_replicate. exact Hk. }
  rewrite bind_Ok. change (0 + k)%nat with k. cbn [seq terms_loop].
  rewrite (py_getitem_nat (power_vector n k e)), Hke.
  rewrite bind_Ok. destruct (Z.eqb_spec e 0); [contradiction|].
  rewrite (py_getitem_nat names), Hn, bind_Ok.
  apply terms_loop_zeros. intros i Hi. apply in_seq in Hi. apply Hz; lia.
Qed.

Lemma length_power_vector (n i : nat) (e : Z) :
  length (power_vector n i e) = n.
Proof. unfold power_vector. rewrite length_insert. apply length_replicate. Qed.

(** X19. How a power of one generator is printed: for a position [k] that
    has a name, [_repr_term] of the vector with [e] at [k] and zero
    elsewhere is ["1"] when [e = 0], the name when [e = 1], and the name
    followed by [^] and the decimal exponent otherwise; the multiplication
    symbol does not occur.  The identity prints as ["1"] and a generator as
    its name. *)
Theorem repr_term_power (self : FiniteGCAlgebra) (sym : TermSymbols)
    (n k : nat) (e : Z) (name : string) :
  _names self !! k = Some name → (k < n)%nat →
  _repr_term self sym (power_vector n k e)
  = Ok (if e =? 0 then "1"
        else if e =? 1 then name
        else name +:+ "^" +:+ pretty e).
Proof.
  intros Hn Hk. unfold _repr_term.
  rewrite py_sum_power_vector by exact Hk.
  destruct (Z.eqb_spec e 0) as [|He]; [reflexivity|].
  rewrite repr_term_loop_eq, length_power_vector.
  rewrite (terms_loop_power _ _ _ _ _ _ Hn Hk He), bind_Ok.
  reflexivity.
Qed.

Lemma repr_term_power_witness :
  _names A_4_8_2 !! 2%nat = Some "z" ∧ (2 < 3)%nat
  ∧ _repr_term A_4_8_2 (symbols_of_kwargs None None) [0; 0; 1] = Ok "z"
  ∧ _repr_term A_4_8_2 (symbols_of_kwargs None None) [0; 0; 4] = Ok "z^4"
  ∧ _repr_term A_4_8_2 (symbols_of_kwargs None None) [0; 0; 0] = Ok "1".
Proof.
  assert (_names A_4_8_2 !! 2%nat = Some "z") as Hn by reflexivity.
  assert (2 < 3)%nat as Hk by lia.
  split; [exact Hn|]. split; [exact Hk|]. split; [|split].
  - exact (repr_term_power A_4_8_2 _ 3 2 1 "z" Hn Hk).
  - exact (repr_term_power A_4_8_2 _ 3 2 4 "z" Hn Hk).
  - exact (repr_term_power A_4_8_2 _ 3 2 0 "z" Hn Hk).
Defined.

(** X20. How [_latex_term] writes a power of one generator: for a position
    [k] that has a name, the vector with [e] at [k] and zero elsewhere gives
    ["1"] when [e = 0], the name when [e = 1], and the name followed by the
    decimal exponent between [^{] and [}] otherwise; the LaTeX
    multiplication symbol does not occur. *)
Theorem latex_term_power (self : FiniteGCAlgebra) (sym : TermSymbols)
    (n k : nat) (e : Z) (name : string) :
  _names self !! k = Some name → (k < n)%nat →
  _latex_term self sym (power_vector n k e)
  = Ok (if e =? 0 then "1"
        else if e =? 1 then name
        else name +:+ "^{" +:+ pretty e +:+ "}").
Proof.
  intros Hn Hk. unfold _latex_term.
  rewrite py_sum_power_vector by exact Hk.
  destruct (Z.eqb_spec e 0) as [|He]; [reflexivity|].
  rewrite latex_term_loop_eq, length_power_vector.
  rewrite (terms_loop_power _ _ _ _ _ _ Hn Hk He), bind_Ok.
  reflexivity.
Qed.

Lemma latex_term_power_witness :
  _names A_4_8_2 !! 1%nat = Some "y" ∧ (1 < 3)%nat
  ∧ _latex_term A_4_8_2 (symbols_of_kwargs None (Some "\smile")) [0; 1; 0]
    = Ok "y"
  ∧ _latex_term A_4_8_2 (symbols_of_kwargs None (Some "\smile")) [0; 12; 0]
    = Ok "y^{12}".
Proof.
  assert (_names A_4_8_2 !! 1%nat = Some "y") as Hn by reflexivity.
  assert (1 < 3)%nat as Hk by lia.
  split; [exact Hn|]. split; [exact Hk|]. split.
  - exact (latex_term_power A_4_8_2 _ 3 1 1 "y" Hn Hk).
  - exact (latex_term_power A_4_8_2 _ 3 1 12 "y" Hn Hk).
Defined.

(** The doctests of [_repr_term] and [_latex_term]. *)
Lemma term_display_doctests :
  _repr_term A_1_2_3_max10 (symbols_of_kwargs None None) [1; 2; 1]
  = Ok "x*y^2*z"
  ∧ _latex_term A_1_2_3_max10 (symbols_of_kwargs None None) [1; 2; 1]
    = Ok "x y^{2} z"
  ∧ _latex_term A_1_2_3_max10 (symbols_of_kwargs None (Some "\smile"))
      [1; 2; 1]
    = Ok "x\smile y^{2}\smile z".
Proof. repeat split; vm_compute; reflexivity. Qed.
